(** * MiniCab: a shallow embedding of [AssignmentCode.py]

    The module is a small object-oriented program: a singleton
    configuration ([AppConfig]), two strategy hierarchies
    ([PricingStrategy], [PaymentMethod]), two decorators ([authenticate],
    [log_operation]) and the orchestrator [CabBookingSystem] whose
    [book_ride] composes them.

    Modelling choices, all taken from the source:
    - a Python [float] is an IEEE-754 binary64 value: [spec_float] of the
      Standard Library with [prec = 53] and [emax = 1024];
    - objects live in a store ([World]); a reference is a location;
    - [print] appends one line to the standard output of the world; an
      f-string is kept as the list of its pieces, in order;
    - an operation is a state-passing function into [option]: [None] is
      the outcome of following a reference to an object that does not
      exist, which no Python run does; the value Python calls [None] is
      the [None] of an inner [option]. *)

From Stdlib Require Import ZArith Bool.
From Stdlib.Floats Require Import SpecFloat.
From stdpp Require Import gmap strings list fin_maps.

Local Open Scope Z_scope.

(** ** Python floats *)

Module Float.

Definition prec : Z := 53.
Definition emax : Z := 1024.

(** A Python [float]. *)
Definition float : Type := spec_float.

(** [x * y] on two floats. *)
Definition mul (x y : float) : float := SFmul prec emax x y.

(** [float(n)] for an integer [n], rounded to nearest even: the conversion
    Python applies to the [int] operand of a mixed [float * int] product.
    The module applies it to the constants 10 and 25 only; the float
    literals of the script (5.0, 15.0, ...) are whole numbers and are
    written with it as well. *)
Definition of_int (n : Z) : float := binary_normalize prec emax n 0 false.

Definition zero : float := S754_zero false.

(** The comparisons [x < y], [x <= y] and the unary [-x], [abs(x)]. *)
Definition ltb (x y : float) : bool := SFltb x y.
Definition leb (x y : float) : bool := SFleb x y.
Definition opp (x : float) : float := SFopp x.
Definition abs (x : float) : float := SFabs x.

(** The values a Python float can take: the canonical binary64
    representations. *)
Definition valid (x : float) : bool := valid_binary prec emax x.

End Float.

Abbreviation float := Float.float.

(** ** Text written by [print]

    An f-string is kept as the sequence of its pieces: the literal text of
    the format string and, for each replacement field, the value that is
    interpolated together with its format. *)

Inductive piece : Type :=
  | Lit (s : string)      (* literal text *)
  | Str (s : string)      (* a replacement field holding a str *)
  | Num (x : float)       (* a replacement field holding a float, default format *)
  | Fix2 (x : float).     (* a replacement field holding a float, format .2f *)

Definition line : Type := list piece.

(** The newline character of the escapes in the source. *)
Definition nl : string := String (Ascii.ascii_of_nat 10) EmptyString.

(** ** Strategies *)

(** The concrete subclasses of the abstract class [PricingStrategy]. *)
Inductive PricingStrategy : Type :=
  | NormalPricing
  | SurgePricing.

Definition calculate_fare (self : PricingStrategy) (distance_km : float) : float :=
  match self with
  | NormalPricing => Float.mul distance_km (Float.of_int 10)
  | SurgePricing => Float.mul distance_km (Float.of_int 25)
  end.

(** The concrete subclasses of the abstract class [PaymentMethod]. *)
Inductive PaymentMethod : Type :=
  | UPIPayment
  | CardPayment
  | WalletPayment.

(** ** The store *)

Definition loc : Type := positive.

(** The attributes of an [AppConfig] object. *)
Record AppConfig : Type := mkAppConfig {
  app_name : string;
  currency_symbol : string
}.

(** The attributes of a [CabBookingSystem] object; [None] in a strategy
    attribute is Python's [None]. *)
Record CabBookingSystem : Type := mkCabBookingSystem {
  user_name : string;
  is_authenticated : bool;
  pricing_strategy : option PricingStrategy;
  payment_method : option PaymentMethod;
  config : loc
}.

(** The state of the process: the class attribute [AppConfig._instance],
    the objects of the two classes that carry attributes, the lines
    printed so far (oldest first) and the wall clock, which is an oracle
    giving the formatted reading of the n-th call of [datetime.now()]. *)
Record World : Type := mkWorld {
  AppConfig_instance : option loc;
  configs : gmap loc AppConfig;
  systems : gmap loc CabBookingSystem;
  stdout : list line;
  clock : nat → string;
  ticks : nat
}.

(** The process before the module's first statement has run. *)
Definition initial_world (clk : nat → string) : World :=
  mkWorld None ∅ ∅ [] clk 0%nat.

(** ** Operations on the store *)

Definition M (A : Type) : Type := World → option (A * World).

#[global] Instance M_ret : MRet M := λ A x w, Some (x, w).
#[global] Instance M_bind : MBind M := λ A B f m w,
  match m w with
  | Some (x, w') => f x w'
  | None => None
  end.

Definition print (l : line) : M unit := λ w,
  Some (tt, mkWorld (AppConfig_instance w) (configs w) (systems w)
                    (stdout w ++ [l]) (clock w) (ticks w)).

(** [datetime.now().strftime('%Y-%m-%d %H:%M:%S')] *)
Definition datetime_now : M string := λ w,
  Some (clock w (ticks w),
        mkWorld (AppConfig_instance w) (configs w) (systems w)
                (stdout w) (clock w) (S (ticks w))).

(** Reading an attribute of a [CabBookingSystem] object. *)
Definition attr {A : Type} (self : loc) (field : CabBookingSystem → A) : M A := λ w,
  match systems w !! self with
  | Some o => Some (field o, w)
  | None => None
  end.

(** Reading an attribute of an [AppConfig] object. *)
Definition config_attr {A : Type} (c : loc) (field : AppConfig → A) : M A := λ w,
  match configs w !! c with
  | Some o => Some (field o, w)
  | None => None
  end.

(** Assigning the attributes of a [CabBookingSystem] object. *)
Definition assign (self : loc) (update : CabBookingSystem → CabBookingSystem) : M unit := λ w,
  match systems w !! self with
  | Some o =>
      Some (tt, mkWorld (AppConfig_instance w) (configs w)
                        (<[self := update o]> (systems w))
                        (stdout w) (clock w) (ticks w))
  | None => None
  end.

(** Creating a [CabBookingSystem] object with the given attributes. *)
Definition allocate (o : CabBookingSystem) : M loc := λ w,
  let self := fresh (dom (systems w)) in
  Some (self, mkWorld (AppConfig_instance w) (configs w)
                      (<[self := o]> (systems w))
                      (stdout w) (clock w) (ticks w)).

(** ** [AppConfig]: the singleton *)

(** [AppConfig()], that is [AppConfig.__new__]: the first call creates the
    object and sets its two attributes, every call returns
    [AppConfig._instance]. *)
Definition AppConfig_new : M loc := λ w,
  match AppConfig_instance w with
  | None =>
      let c := fresh (dom (configs w)) in
      Some (c, mkWorld (Some c)
                       (<[c := mkAppConfig "MiniCab" "₹"]> (configs w))
                       (systems w) (stdout w) (clock w) (ticks w))
  | Some c => Some (c, w)
  end.

(** ** Payment *)

Definition process_payment (self : PaymentMethod) (amount : float) : M bool :=
  match self with
  | UPIPayment =>
      c ← AppConfig_new;
      sym ← config_attr c currency_symbol;
      print [Lit "UPI payment of "; Str sym; Fix2 amount; Lit " - Success!"];;
      mret true
  | CardPayment =>
      c ← AppConfig_new;
      sym ← config_attr c currency_symbol;
      print [Lit "Card payment of "; Str sym; Fix2 amount; Lit " - Success!"];;
      mret true
  | WalletPayment =>
      c ← AppConfig_new;
      sym ← config_attr c currency_symbol;
      print [Lit "Wallet payment of "; Str sym; Fix2 amount; Lit " - Success!"];;
      mret true
  end.

(** ** Truth values

    [x if result else y] asks for the truth value of [result]: [None] is
    false, a dict is true when its length is not zero. *)

Class Truthy (A : Type) : Type := truthy : A → bool.

#[global] Instance dict_truthy {V : Type} : Truthy (gmap string V) :=
  λ d, negb (size d =? 0)%nat.

#[global] Instance option_truthy {A : Type} `{Truthy A} : Truthy (option A) :=
  λ o, match o with Some x => truthy x | None => false end.

(** ** Decorators *)

Definition authenticate {A R : Type} (func : loc → A → M (option R))
    : loc → A → M (option R) :=
  λ self args,
    name ← attr self user_name;
    print [Lit (nl +:+ "[AUTH] User: "); Str name];;
    auth ← attr self is_authenticated;
    if negb auth then
      print [Lit ("[AUTH] Failed - Not logged in!" +:+ nl)];;
      mret None
    else
      print [Lit "[AUTH] Success!"];;
      func self args.

Definition log_operation {A R : Type} `{Truthy R} (func : loc → A → M R)
    : loc → A → M R :=
  λ self args,
    now ← datetime_now;
    print [Lit "[LOG] "; Str now; Lit " - Booking started"];;
    result ← func self args;
    let status := if truthy result then "Success" else "Failed" in
    print [Lit "[LOG] Booking "; Str status; Lit nl];;
    mret result.

(** ** [CabBookingSystem] *)

(** The values of the dict that [book_ride] returns. *)
Inductive value : Type :=
  | VStr (s : string)
  | VFloat (x : float).

(** [CabBookingSystem(user_name, is_authenticated)], that is
    [CabBookingSystem.__init__] on a new object; the default of
    [is_authenticated] is [True]. The object appears in the store with
    its five attributes set, the last of them by the call [AppConfig()]. *)
Definition CabBookingSystem_init (user_name : string) (is_authenticated : bool)
    : M loc :=
  c ← AppConfig_new;
  allocate (mkCabBookingSystem user_name is_authenticated None None c).

Definition set_pricing (self : loc) (strategy : PricingStrategy) : M unit :=
  assign self (λ o, mkCabBookingSystem (user_name o) (is_authenticated o)
                                       (Some strategy) (payment_method o) (config o)).

Definition set_payment (self : loc) (method : PaymentMethod) : M unit :=
  assign self (λ o, mkCabBookingSystem (user_name o) (is_authenticated o)
                                       (pricing_strategy o) (Some method) (config o)).

(** The body of [book_ride], before the decorators are applied. *)
Definition book_ride_body (self : loc) (args : string * string * float)
    : M (option (gmap string value)) :=
  let '(pickup, destination, distance_km) := args in
  strategy ← attr self pricing_strategy;
  method ← attr self payment_method;
  match strategy, method with
  | Some strategy, Some method =>
      let fare := calculate_fare strategy distance_km in
      print [Lit (nl +:+ "Ride: "); Str pickup; Lit " → "; Str destination;
             Lit " ("; Num distance_km; Lit " km)"];;
      c ← attr self config;
      sym ← config_attr c currency_symbol;
      print [Lit "Fare: "; Str sym; Fix2 fare];;
      paid ← process_payment method fare;
      if (paid : bool) then
        mret (Some (<["pickup" := VStr pickup]>
                   (<["destination" := VStr destination]>
                   (<["fare" := VFloat fare]> (∅ : gmap string value)))))
      else
        mret None
  | _, _ =>
      print [Lit "[ERROR] Set pricing and payment method first!"];;
      mret None
  end.

(** [book_ride] as the class defines it: [@authenticate] outermost, then
    [@log_operation], then the body. *)
Definition book_ride (self : loc) (pickup destination : string) (distance_km : float)
    : M (option (gmap string value)) :=
  authenticate (log_operation book_ride_body) self (pickup, destination, distance_km).

(** ** The demonstration script

    Scenarios 1 and 2 of the [__main__] block for an orchestrator [system]
    that already exists: the two bookings and the reconfiguration between
    them, returning what the two calls of [book_ride] return. *)
Definition scenario_1_2 (system : loc)
    : M (option (gmap string value) * option (gmap string value)) :=
  set_pricing system NormalPricing;;
  set_payment system UPIPayment;;
  r1 ← book_ride system "MG Road" "Koramangala" (Float.of_int 5);
  set_pricing system SurgePricing;;
  set_payment system CardPayment;;
  r2 ← book_ride system "Airport" "Whitefield" (Float.of_int 15);
  mret (r1, r2).

(** Scenario 4: a user who is not logged in. *)
Definition scenario_4 : M (option (gmap string value)) :=
  failed_system ← CabBookingSystem_init "Jane" false;
  set_pricing failed_system NormalPricing;;
  set_payment failed_system UPIPayment;;
  book_ride failed_system "Jayanagar" "BTM" (Float.of_int 6).

(** ** Well-formed stores

    Python has no dangling reference: the class attribute, when set, names
    an [AppConfig] object, and so does the [config] attribute of every
    [CabBookingSystem] object. *)
Definition wf (w : World) : Prop :=
  (∀ c, AppConfig_instance w = Some c → is_Some (configs w !! c)) ∧
  (∀ self o, systems w !! self = Some o → is_Some (configs w !! config o)).

(** ** Runs of the program

    What a client of the module can do to the process: the calls the
    module offers. [run_calls] performs them one after the other and drops
    the values they return. *)
Inductive call : Type :=
  | Call_AppConfig
  | Call_CabBookingSystem (user_name : string) (is_authenticated : bool)
  | Call_set_pricing (self : loc) (strategy : PricingStrategy)
  | Call_set_payment (self : loc) (method : PaymentMethod)
  | Call_book_ride (self : loc) (pickup destination : string) (distance_km : float)
  | Call_process_payment (method : PaymentMethod) (amount : float).

Definition run_call (c : call) : M unit :=
  match c with
  | Call_AppConfig => AppConfig_new;; mret tt
  | Call_CabBookingSystem user_name is_authenticated =>
      CabBookingSystem_init user_name is_authenticated;; mret tt
  | Call_set_pricing self strategy => set_pricing self strategy
  | Call_set_payment self method => set_payment self method
  | Call_book_ride self pickup destination distance_km =>
      book_ride self pickup destination distance_km;; mret tt
  | Call_process_payment method amount => process_payment method amount;; mret tt
  end.

Fixpoint run_calls (cs : list call) : M unit :=
  match cs with
  | [] => mret tt
  | c :: cs => run_call c;; run_calls cs
  end.

(** ** Vocabulary of the statements *)

(** What a call can do to the [AppConfig] part of the store: objects that
    exist keep their attributes, and once the class attribute is set
    neither it nor the objects change. *)
Definition configs_kept (w w' : World) : Prop :=
  (∀ k o, configs w !! k = Some o → configs w' !! k = Some o) ∧
  (∀ c, AppConfig_instance w = Some c →
        AppConfig_instance w' = Some c ∧ configs w' = configs w) ∧
  (∀ k o, configs w' !! k = Some o →
          configs w !! k = Some o ∨ o = mkAppConfig "MiniCab" "₹").

(** The store after the object [self] has been given the attributes [o]. *)
Definition stored (self : loc) (o : CabBookingSystem) (w : World) : World :=
  mkWorld (AppConfig_instance w) (configs w) (<[self := o]> (systems w))
          (stdout w) (clock w) (ticks w).

(** The store after the lines [ls] have been printed, and after one
    reading of the clock. *)
Definition printed (ls : list line) (w : World) : World :=
  mkWorld (AppConfig_instance w) (configs w) (systems w)
          (stdout w ++ ls) (clock w) (ticks w).

Definition ticked (w : World) : World :=
  mkWorld (AppConfig_instance w) (configs w) (systems w)
          (stdout w) (clock w) (S (ticks w)).

(** The lines of the two decorators and of the missing-policy check. *)
Definition auth_user (name : string) : line := [Lit (nl +:+ "[AUTH] User: "); Str name].
Definition auth_failed : line := [Lit ("[AUTH] Failed - Not logged in!" +:+ nl)].
Definition auth_success : line := [Lit "[AUTH] Success!"].
Definition log_started (now : string) : line :=
  [Lit "[LOG] "; Str now; Lit " - Booking started"].
Definition log_status (status : string) : line :=
  [Lit "[LOG] Booking "; Str status; Lit nl].
Definition error_unset : line := [Lit "[ERROR] Set pricing and payment method first!"].

(** Follows the spec's words, "fare = rate·d, exactly (no rounding error
    beyond floating-point representation)": the exact product of the
    whole number [rate] and the value of [d], represented as a float.
    [binary_round s m e] is the float nearest to the number with sign [s]
    and magnitude [m * 2^e], ties to even, infinity when too large. *)
Definition spec_rate_times (rate : positive) (d : float) : float :=
  match d with
  | S754_finite s m e => binary_round Float.prec Float.emax s (rate * m) e
  | _ => d
  end.

(** A float that is not NaN and carries the sign bit [s]; one that, in
    addition, is not a zero. *)
Definition signed (s : bool) (x : float) : Prop :=
  match x with
  | S754_zero s' | S754_finite s' _ _ | S754_infinity s' => s' = s
  | S754_nan => False
  end.

Definition signed_nonzero (s : bool) (x : float) : Prop :=
  match x with
  | S754_finite s' _ _ | S754_infinity s' => s' = s
  | _ => False
  end.

(** ** Sample stores

    The clock of the samples, and a store holding John's orchestrator as
    scenario 1 configures it, Jane's orchestrator of scenario 4, and an
    orchestrator whose payment method has not been set. *)
Definition sample_clock : nat → string := λ _, "2024-01-01 12:00:00".

Definition sample_world : World :=
  mkWorld (Some 1%positive)
          {[ 1%positive := mkAppConfig "MiniCab" "₹" ]}
          (<[ 1%positive := mkCabBookingSystem "John" true
                              (Some NormalPricing) (Some UPIPayment) 1%positive ]>
          (<[ 2%positive := mkCabBookingSystem "Jane" false
                              (Some NormalPricing) (Some UPIPayment) 1%positive ]>
          (<[ 3%positive := mkCabBookingSystem "Asha" true
                              (Some SurgePricing) None 1%positive ]> ∅)))
          [] sample_clock 0%nat.

(** ** The [__main__] block

    [s * n] on a str and an int, and [str(b)] for a bool, as the script's
    banner and its singleton demonstration use them. *)
Definition str_mul (s : string) (n : nat) : string :=
  Nat.iter n (λ acc, s +:+ acc) EmptyString.

Definition str_of_bool (b : bool) : string := if b then "True" else "False".

(** The statements of the block, in order. [c1 is c2] on two references
    compares the locations. *)
Definition main : M unit :=
  print [Lit (str_mul "=" 60)];;
  c ← AppConfig_new;
  name ← config_attr c app_name;
  print [Lit "Welcome to "; Str name];;
  print [Lit (str_mul "=" 60)];;
  print [Lit (nl +:+ "### SCENARIO 1: Normal Pricing + UPI ###")];;
  system ← CabBookingSystem_init "John" true;
  set_pricing system NormalPricing;;
  set_payment system UPIPayment;;
  book_ride system "MG Road" "Koramangala" (Float.of_int 5);;
  print [Lit (nl +:+ "### SCENARIO 2: Surge Pricing + Card ###")];;
  set_pricing system SurgePricing;;
  set_payment system CardPayment;;
  book_ride system "Airport" "Whitefield" (Float.of_int 15);;
  print [Lit (nl +:+ "### SCENARIO 3: Normal Pricing + Wallet ###")];;
  set_pricing system NormalPricing;;
  set_payment system WalletPayment;;
  book_ride system "Indiranagar" "HSR Layout" (Float.of_int 8);;
  print [Lit (nl +:+ "### SCENARIO 4: Unauthenticated User ###")];;
  failed_system ← CabBookingSystem_init "Jane" false;
  set_pricing failed_system NormalPricing;;
  set_payment failed_system UPIPayment;;
  book_ride failed_system "Jayanagar" "BTM" (Float.of_int 6);;
  print [Lit (nl +:+ "### SINGLETON DEMO ###")];;
  config1 ← AppConfig_new;
  config2 ← AppConfig_new;
  print [Lit "Same instance: "; Str (str_of_bool (bool_decide (config1 = config2)))];;
  app ← config_attr config1 app_name;
  sym ← config_attr config1 currency_symbol;
  print [Lit "App: "; Str app; Lit ", Currency: "; Str sym].

(** ** Further vocabulary of the statements *)

(** The three lines of a booking that reaches the payment. *)
Definition ride_line (pickup destination : string) (distance_km : float) : line :=
  [Lit (nl +:+ "Ride: "); Str pickup; Lit " → "; Str destination;
   Lit " ("; Num distance_km; Lit " km)"].

Definition fare_line (sym : string) (fare : float) : line :=
  [Lit "Fare: "; Str sym; Fix2 fare].

Definition payment_line (method : PaymentMethod) (sym : string) (amount : float) : line :=
  [Lit match method with
       | UPIPayment => "UPI payment of "
       | CardPayment => "Card payment of "
       | WalletPayment => "Wallet payment of "
       end;
   Str sym; Fix2 amount; Lit " - Success!"].

(** The dict of a booking. *)
Definition booking (pickup destination : string) (fare : float) : gmap string value :=
  <["pickup" := VStr pickup]>
  (<["destination" := VStr destination]>
  (<["fare" := VFloat fare]> ∅)).

(** A store in which the configuration is shared: either nothing has been
    created yet, or there is one [AppConfig] object, it is the one the
    class attribute names, it has the attributes its creation gave it, and
    it is the [config] of every orchestrator. *)
Definition shared_config (w : World) : Prop :=
  match AppConfig_instance w with
  | None => configs w = ∅ ∧ systems w = ∅
  | Some c =>
      configs w = {[ c := mkAppConfig "MiniCab" "₹" ]} ∧
      ∀ self o, systems w !! self = Some o → config o = c
  end.

(** Two states of one orchestrator with the same session: the attributes
    that no method assigns after construction. *)
Definition same_session (o o' : CabBookingSystem) : Prop :=
  user_name o' = user_name o ∧
  is_authenticated o' = is_authenticated o ∧
  config o' = config o.

(** * Properties *)

(** ** Binary64 arithmetic

    Facts about the rounding of [SFmul]: the mantissa that is shifted
    right stays non-negative, and stays positive when fewer bits are
    dropped than the mantissa has. *)

Lemma iter_pos_nat {A : Type} (f : A -> A) (p : positive) (x : A) :
  SpecFloat.iter_pos f p x = Nat.iter (Pos.to_nat p) f x.
Proof.
  revert x. induction p as [p IH | p IH |]; intros x; cbn [SpecFloat.iter_pos].
  - rewrite !IH, Pos2Nat.inj_xI.
    replace (S (2 * Pos.to_nat p))%nat with (Pos.to_nat p + S (Pos.to_nat p))%nat by lia.
    rewrite Nat.iter_add. now rewrite Nat.iter_succ_r.
  - rewrite !IH, Pos2Nat.inj_xO.
    replace (2 * Pos.to_nat p)%nat with (Pos.to_nat p + Pos.to_nat p)%nat by lia.
    now rewrite Nat.iter_add.
  - reflexivity.
Qed.

Lemma shr_1_m (r : shr_record) :
  0 <= shr_m r -> shr_m (shr_1 r) = Z.div2 (shr_m r).
Proof.
  destruct r as [m r s]. simpl. destruct m as [|[p|p|]|p]; simpl; try reflexivity; lia.
Qed.

Lemma shr_iter_m (n : nat) (r : shr_record) :
  0 <= shr_m r -> shr_m (Nat.iter n shr_1 r) = Z.shiftr (shr_m r) (Z.of_nat n).
Proof.
  intros Hr. induction n as [|n IH].
  - simpl. now rewrite Z.shiftr_0_r.
  - rewrite Nat2Z.inj_succ. simpl Nat.iter. rewrite shr_1_m.
    + rewrite IH. rewrite Z.div2_spec. rewrite Z.shiftr_shiftr by lia. reflexivity.
    + rewrite IH. apply Z.shiftr_nonneg. exact Hr.
Qed.

Lemma shr_m_pos (r : shr_record) (e n : Z) :
  0 < shr_m r -> 2 ^ n <= shr_m r -> 0 < shr_m (fst (shr r e n)).
Proof.
  intros Hr Hn. destruct n as [|p|p]; simpl; try exact Hr.
  rewrite iter_pos_nat, shr_iter_m by lia.
  rewrite positive_nat_Z. rewrite Z.shiftr_div_pow2 by lia.
  apply Z.div_str_pos. lia.
Qed.

Lemma digits2_pos_size (p : positive) : digits2_pos p = Pos.size p.
Proof. induction p; simpl; congruence. Qed.

Lemma Zdigits2_bounds (p : positive) :
  2 ^ (Zdigits2 (Zpos p) - 1) <= Zpos p < 2 ^ Zdigits2 (Zpos p).
Proof.
  unfold Zdigits2. rewrite digits2_pos_size.
  set (d := Zpos (Pos.size p)).
  assert (Hle : 2 ^ d <= 2 * Zpos p).
  { unfold d. change 2 with (Zpos 2) at 1. rewrite <- Pos2Z.inj_pow.
    change (2 * Zpos p) with (Zpos p~0). apply Pos2Z.pos_le_pos, Pos.size_le. }
  assert (Hgt : Zpos p < 2 ^ d).
  { unfold d. change 2 with (Zpos 2). rewrite <- Pos2Z.inj_pow.
    apply Pos2Z.pos_lt_pos, Pos.size_gt. }
  split; [|exact Hgt].
  replace d with (Z.succ (d - 1)) in Hle by lia.
  rewrite Z.pow_succ_r in Hle by (unfold d; lia). lia.
Qed.

Lemma shr_record_of_loc_m (m : Z) (l : location) : shr_m (shr_record_of_loc m l) = m.
Proof. destruct l as [|[]]; reflexivity. Qed.

Lemma shr_fexp_pos (mx : positive) (ex : Z) (lx : location) :
  fexp Float.prec Float.emax (Zdigits2 (Zpos mx) + ex) - ex < Zdigits2 (Zpos mx) ->
  0 < shr_m (fst (shr_fexp Float.prec Float.emax (Zpos mx) ex lx)) /\
  emin Float.prec Float.emax <= snd (shr_fexp Float.prec Float.emax (Zpos mx) ex lx).
Proof.
  intros Hn. unfold shr_fexp.
  set (n := fexp Float.prec Float.emax (Zdigits2 (Zpos mx) + ex) - ex) in *.
  pose proof (Zdigits2_bounds mx) as [Hlo _].
  split.
  - apply shr_m_pos; rewrite shr_record_of_loc_m; [lia|].
    destruct (Z.le_gt_cases 0 n) as [Hpos | Hneg].
    + etransitivity; [|exact Hlo]. apply Z.pow_le_mono_r; lia.
    + rewrite Z.pow_neg_r by lia. lia.
  - assert (Hmin : emin Float.prec Float.emax
                   <= fexp Float.prec Float.emax (Zdigits2 (Zpos mx) + ex))
      by (unfold fexp; lia).
    unfold shr. destruct n as [|p|p] eqn:En; cbn [snd]; lia.
Qed.

Lemma round_nearest_even_ge (m : Z) (l : location) : m <= round_nearest_even m l.
Proof. destruct l as [|[]]; simpl; try lia. destruct (Z.even m); lia. Qed.

Lemma binary_round_aux_nonzero (s : bool) (mx : positive) (ex : Z) (lx : location) :
  fexp Float.prec Float.emax (Zdigits2 (Zpos mx) + ex) - ex < Zdigits2 (Zpos mx) ->
  signed_nonzero s (binary_round_aux Float.prec Float.emax s (Zpos mx) ex lx).
Proof.
  intros Hn. unfold binary_round_aux.
  destruct (shr_fexp_pos mx ex lx Hn) as [Hm1 He1].
  destruct (shr_fexp Float.prec Float.emax (Zpos mx) ex lx) as [mrs1 e1]. cbn [fst snd] in *.
  pose proof (round_nearest_even_ge (shr_m mrs1) (loc_of_shr_record mrs1)) as Hge.
  destruct (round_nearest_even (shr_m mrs1) (loc_of_shr_record mrs1)) as [|m2|m2]; try lia.
  assert (Hn2 : fexp Float.prec Float.emax (Zdigits2 (Zpos m2) + e1) - e1 < Zdigits2 (Zpos m2)).
  { unfold fexp, Zdigits2. unfold Float.prec at 1. lia. }
  destruct (shr_fexp_pos m2 e1 loc_Exact Hn2) as [Hm3 _].
  destruct (shr_fexp Float.prec Float.emax (Zpos m2) e1 loc_Exact) as [mrs3 e3]. cbn [fst] in *.
  destruct (shr_m mrs3) as [|m3|m3]; try lia.
  destruct (e3 <=? Float.emax - Float.prec); reflexivity.
Qed.

Lemma bounded_emin (m : positive) (e : Z) :
  bounded Float.prec Float.emax m e = true -> emin Float.prec Float.emax <= e.
Proof.
  unfold bounded, canonical_mantissa. intros H.
  apply andb_prop in H as [H _]. apply Z.eqb_eq in H.
  unfold fexp in H. lia.
Qed.

Lemma Zdigits2_ge (p : positive) (k : Z) : 2 ^ k <= Zpos p -> k < Zdigits2 (Zpos p).
Proof.
  intros Hk. pose proof (Zdigits2_bounds p) as [_ Hhi].
  destruct (Z.lt_ge_cases k (Zdigits2 (Zpos p))) as [|Hge]; [assumption|].
  assert (2 ^ Zdigits2 (Zpos p) <= 2 ^ k).
  { apply Z.pow_le_mono_r; [lia|exact Hge]. }
  lia.
Qed.

Lemma SFmul_signed_nonzero (s : bool) (m : positive) (e : Z) (mc : positive) (ec : Z) :
  bounded Float.prec Float.emax m e = true ->
  2 ^ 52 <= Zpos mc -> -52 <= ec ->
  signed_nonzero s (SFmul Float.prec Float.emax (S754_finite s m e) (S754_finite false mc ec)).
Proof.
  intros Hb Hmc Hec. cbn [SFmul]. rewrite xorb_false_r.
  apply binary_round_aux_nonzero.
  pose proof (bounded_emin m e Hb) as He.
  assert (Hd : 52 < Zdigits2 (Zpos (m * mc))).
  { apply Zdigits2_ge. rewrite Pos2Z.inj_mul. nia. }
  unfold fexp. unfold Float.prec at 1. lia.
Qed.

Lemma shr_m_nonneg (r : shr_record) (e n : Z) :
  0 <= shr_m r -> 0 <= shr_m (fst (shr r e n)).
Proof.
  intros Hr. destruct n as [|p|p]; simpl; try exact Hr.
  rewrite iter_pos_nat, shr_iter_m by exact Hr. by apply Z.shiftr_nonneg.
Qed.

Lemma shr_fexp_nonneg (m e : Z) (l : location) :
  0 <= m -> 0 <= shr_m (fst (shr_fexp Float.prec Float.emax m e l)).
Proof.
  intros Hm. unfold shr_fexp. apply shr_m_nonneg. by rewrite shr_record_of_loc_m.
Qed.

Lemma binary_round_aux_signed (s : bool) (mx ex : Z) (lx : location) :
  0 <= mx -> signed s (binary_round_aux Float.prec Float.emax s mx ex lx).
Proof.
  intros Hm. unfold binary_round_aux.
  pose proof (shr_fexp_nonneg mx ex lx Hm) as H1.
  destruct (shr_fexp Float.prec Float.emax mx ex lx) as [mrs1 e1]. cbn [fst] in H1.
  pose proof (round_nearest_even_ge (shr_m mrs1) (loc_of_shr_record mrs1)) as Hge.
  set (m2 := round_nearest_even (shr_m mrs1) (loc_of_shr_record mrs1)) in *.
  assert (H2 : 0 <= m2) by lia.
  pose proof (shr_fexp_nonneg m2 e1 loc_Exact H2) as H3.
  destruct (shr_fexp Float.prec Float.emax m2 e1 loc_Exact) as [mrs3 e3]. cbn [fst] in H3.
  destruct (shr_m mrs3) as [|m3|m3]; [done | | lia].
  by destruct (e3 <=? Float.emax - Float.prec).
Qed.

Lemma binary_round_aux_opp (s : bool) (mx ex : Z) (lx : location) :
  binary_round_aux Float.prec Float.emax (negb s) mx ex lx
  = SFopp (binary_round_aux Float.prec Float.emax s mx ex lx).
Proof.
  unfold binary_round_aux.
  destruct (shr_fexp Float.prec Float.emax mx ex lx) as [mrs1 e1].
  destruct (shr_fexp Float.prec Float.emax _ e1 loc_Exact) as [mrs3 e3].
  destruct (shr_m mrs3); [done | | done].
  by destruct (e3 <=? Float.emax - Float.prec).
Qed.

(** A product by a float [n * 2^k / 2^k] is the rounding of the exact
    product by [n]: the zeros that the constant appends to the mantissa are
    the first bits the rounding drops. *)

Lemma shr_nat (r : shr_record) (e n : Z) :
  0 <= n -> shr r e n = (Nat.iter (Z.to_nat n) shr_1 r, e + n).
Proof.
  intros Hn. destruct n as [|p|p]; [| |lia].
  - simpl. now rewrite Z.add_0_r.
  - simpl shr. now rewrite iter_pos_nat.
Qed.

Lemma shr_iter_shiftl (k : nat) (p : positive) :
  Nat.iter k shr_1 (Build_shr_record (Zpos (Pos.shiftl_nat p k)) false false)
  = Build_shr_record (Zpos p) false false.
Proof.
  induction k as [|k IH]; [reflexivity|].
  rewrite Nat.iter_succ_r. exact IH.
Qed.

Lemma digits2_pos_shiftl (k : nat) (p : positive) :
  Zpos (digits2_pos (Pos.shiftl_nat p k)) = Zpos (digits2_pos p) + Z.of_nat k.
Proof.
  induction k as [|k IH]; [simpl; lia|].
  rewrite Nat2Z.inj_succ.
  change (Pos.shiftl_nat p (S k)) with (xO (Pos.shiftl_nat p k)).
  cbn [digits2_pos]. rewrite Pos2Z.inj_succ. lia.
Qed.

Lemma mul_shiftl (k : nat) (m n : positive) :
  (m * Pos.shiftl_nat n k = Pos.shiftl_nat (m * n) k)%positive.
Proof.
  induction k as [|k IH]; [reflexivity|].
  change (Pos.shiftl_nat n (S k)) with (xO (Pos.shiftl_nat n k)).
  change (Pos.shiftl_nat (m * n) (S k)) with (xO (Pos.shiftl_nat (m * n) k)).
  rewrite Pos.mul_xO_r. now rewrite IH.
Qed.

Lemma shr_fexp_scale (M : positive) (E : Z) (k : nat) :
  0 <= fexp Float.prec Float.emax (Zdigits2 (Zpos M) + E) - E ->
  shr_fexp Float.prec Float.emax (Zpos (Pos.shiftl_nat M k)) (E - Z.of_nat k) loc_Exact
  = shr_fexp Float.prec Float.emax (Zpos M) E loc_Exact.
Proof.
  intros Hn. unfold shr_fexp, Zdigits2. rewrite digits2_pos_shiftl.
  replace (Zpos (digits2_pos M) + Z.of_nat k + (E - Z.of_nat k))
    with (Zpos (digits2_pos M) + E) by lia.
  unfold Zdigits2 in Hn.
  set (F := fexp Float.prec Float.emax (Zpos (digits2_pos M) + E)) in *.
  rewrite !shr_nat by lia. cbn [shr_record_of_loc].
  replace (Z.to_nat (F - (E - Z.of_nat k))) with (Z.to_nat (F - E) + k)%nat by lia.
  rewrite Nat.iter_add, shr_iter_shiftl. f_equal. lia.
Qed.

Lemma digits2_pos_mul_le (n m : positive) :
  Zpos (digits2_pos m) <= Zpos (digits2_pos (n * m)).
Proof.
  pose proof (Zdigits2_bounds m) as [Hlo _].
  assert (H : Zdigits2 (Zpos m) - 1 < Zdigits2 (Zpos (n * m))).
  { apply Zdigits2_ge. rewrite Pos2Z.inj_mul. nia. }
  unfold Zdigits2 in H. lia.
Qed.

Lemma SFmul_rate_times (s : bool) (m : positive) (e : Z) (n : positive) (k : nat) :
  bounded Float.prec Float.emax m e = true ->
  SFmul Float.prec Float.emax (S754_finite s m e)
        (S754_finite false (Pos.shiftl_nat n k) (- Z.of_nat k))
  = binary_round Float.prec Float.emax s (n * m) e.
Proof.
  intros Hb. cbn [SFmul]. rewrite xorb_false_r.
  assert (He : fexp Float.prec Float.emax (Zpos (digits2_pos m) + e) = e).
  { unfold bounded, canonical_mantissa in Hb.
    apply andb_prop in Hb as [Hb _]. now apply Z.eqb_eq in Hb. }
  assert (Hn : 0 <= fexp Float.prec Float.emax (Zpos (digits2_pos (n * m)) + e) - e).
  { pose proof (digits2_pos_mul_le n m). unfold fexp in *. lia. }
  unfold binary_round, shl_align.
  destruct (fexp Float.prec Float.emax (Zpos (digits2_pos (n * m)) + e) - e)
    as [|p|p] eqn:En; try lia;
    rewrite mul_shiftl, (Pos.mul_comm m n); unfold binary_round_aux;
    change (e + - Z.of_nat k) with (e - Z.of_nat k);
    rewrite shr_fexp_scale; try reflexivity; unfold Zdigits2; lia.
Qed.

(** The sign rule of the product, and its symmetries. *)

Lemma mul_signed (x : float) (s : bool) (mc : positive) (ec : Z) :
  signed s x -> signed s (Float.mul x (S754_finite false mc ec)).
Proof.
  intros Hx. unfold Float.mul.
  destruct x as [s1|s1| |s1 m1 e1]; simpl in Hx; try done; subst;
    cbn [SFmul]; rewrite xorb_false_r; try reflexivity.
  by apply binary_round_aux_signed.
Qed.

Lemma mul_opp_l (x y : float) :
  Float.mul (Float.opp x) y = Float.opp (Float.mul x y).
Proof.
  unfold Float.mul, Float.opp.
  destruct x as [s1|s1| |s1 m1 e1], y as [s2|s2| |s2 m2 e2]; try reflexivity;
    cbn [SFmul SFopp]; rewrite <- ?negb_xorb_l; try reflexivity.
  apply binary_round_aux_opp.
Qed.

Lemma mul_comm (x y : float) : Float.mul x y = Float.mul y x.
Proof.
  unfold Float.mul.
  destruct x as [s1|s1| |s1 m1 e1], y as [s2|s2| |s2 m2 e2]; try reflexivity;
    cbn [SFmul]; rewrite ?(xorb_comm s1 s2); try reflexivity.
  by rewrite (Pos.mul_comm m1 m2), (Z.add_comm e1 e2).
Qed.

Lemma mul_signed_nonzero (x y : float) (s : bool) :
  Float.valid x = true -> signed_nonzero s x ->
  (∃ mc ec, y = S754_finite false mc ec ∧ 2 ^ 52 <= Zpos mc ∧ -52 <= ec) ->
  signed_nonzero s (Float.mul x y).
Proof.
  intros Hv Hs (mc & ec & -> & Hmc & Hec). unfold Float.mul.
  destruct x as [s1|s1| |s1 m1 e1]; simpl in Hs; try done; subst.
  - simpl. by destruct s.
  - by apply SFmul_signed_nonzero.
Qed.

(** Order against zero, read off the sign. *)

Lemma leb_zero_signed (x : float) :
  Float.leb Float.zero x = true -> signed false x ∨ x = S754_zero true.
Proof.
  destruct x as [[]|[]| |[] m e]; simpl; intros H; try discriminate; auto.
Qed.

Lemma signed_leb_zero (x : float) : signed false x -> Float.leb Float.zero x = true.
Proof. destruct x as [s|s| |s m e]; simpl; intros H; try done; by subst. Qed.

Lemma ltb_zero_signed (x : float) : Float.ltb x Float.zero = true -> signed_nonzero true x.
Proof. destruct x as [[]|[]| |[] m e]; simpl; intros H; try discriminate; auto. Qed.

Lemma signed_ltb_zero (x : float) : signed_nonzero true x -> Float.ltb x Float.zero = true.
Proof. destruct x as [s|s| |s m e]; simpl; intros H; try done; by subst. Qed.

Lemma opp_abs_negative (x : float) : signed_nonzero true x -> Float.opp (Float.abs x) = x.
Proof. destruct x as [s|s| |s m e]; simpl; intros H; try done; by subst. Qed.

(** ** Running a computation *)

Lemma bind_Some {A B : Type} (m : M A) (f : A → M B) (w w' : World) (x : A) :
  m w = Some (x, w') → (m ≫= f) w = f x w'.
Proof. intros E. unfold mbind, M_bind. by rewrite E. Qed.

Lemma bind_inv {A B : Type} (m : M A) (f : A → M B) (w w2 : World) (y : B) :
  (m ≫= f) w = Some (y, w2) → ∃ x w1, m w = Some (x, w1) ∧ f x w1 = Some (y, w2).
Proof.
  unfold mbind, M_bind. destruct (m w) as [[x w1]|] eqn:E; [|done].
  intros F. by exists x, w1.
Qed.

Lemma attr_Some {A : Type} (self : loc) (field : CabBookingSystem → A) (w : World) o :
  systems w !! self = Some o → attr self field w = Some (field o, w).
Proof. intros E. unfold attr. by rewrite E. Qed.

Lemma config_attr_Some {A : Type} (c : loc) (field : AppConfig → A) (w : World) o :
  configs w !! c = Some o → config_attr c field w = Some (field o, w).
Proof. intros E. unfold config_attr. by rewrite E. Qed.

(** [step] runs the first statement of a body when its outcome is known
    from the context: a [print], a reading of the clock, or an attribute
    read whose object is at hand. *)
Ltac step :=
  erewrite bind_Some
    by first [ reflexivity
             | eassumption
             | apply attr_Some; eassumption
             | apply config_attr_Some; eassumption ].

(** ** The singleton *)

Lemma configs_kept_refl w : configs_kept w w.
Proof. split_and!; auto. Qed.

Lemma configs_kept_trans w1 w2 w3 :
  configs_kept w1 w2 → configs_kept w2 w3 → configs_kept w1 w3.
Proof.
  intros (K1 & I1 & N1) (K2 & I2 & N2). split_and!.
  - by auto.
  - intros c Hc. destruct (I1 c Hc) as [Hc2 E2]. destruct (I2 c Hc2) as [Hc3 E3].
    split; [done | congruence].
  - intros k o Ho. destruct (N2 k o Ho) as [Ho2 | ->]; [by apply N1 | by right].
Qed.

Lemma fresh_config_None (w : World) : configs w !! fresh (dom (configs w)) = None.
Proof. apply not_elem_of_dom, is_fresh. Qed.

Lemma fresh_system_None (w : World) : systems w !! fresh (dom (systems w)) = None.
Proof. apply not_elem_of_dom, is_fresh. Qed.

Lemma AppConfig_new_spec (w : World) :
  wf w →
  ∃ c w', AppConfig_new w = Some (c, w') ∧
    AppConfig_instance w' = Some c ∧ is_Some (configs w' !! c) ∧
    systems w' = systems w ∧ stdout w' = stdout w ∧
    clock w' = clock w ∧ ticks w' = ticks w ∧
    wf w' ∧ configs_kept w w'.
Proof.
  intros Hwf. pose proof Hwf as [Hi Hs]. unfold AppConfig_new.
  destruct (AppConfig_instance w) as [c|] eqn:E.
  - exists c, w. split_and!; auto using configs_kept_refl.
  - eexists _, _. split; [reflexivity|]. simpl.
    pose proof (fresh_config_None w) as Hf.
    split_and!; try done.
    + rewrite lookup_insert_eq. by eexists.
    + split; simpl.
      * intros c [= <-]. rewrite lookup_insert_eq. by eexists.
      * intros self o Ho. destruct (Hs self o Ho) as [x Hx].
        exists x. rewrite lookup_insert_ne; [done|]. intros Heq. congruence.
    + split_and!; simpl; [|by rewrite E|].
      * intros k o Ho. rewrite lookup_insert_ne; [done|]. intros Heq. congruence.
      * intros k o. rewrite lookup_insert. case_decide; [|by left].
        intros [= <-]. by right.
Qed.

Lemma AppConfig_new_set (w : World) c :
  AppConfig_instance w = Some c → AppConfig_new w = Some (c, w).
Proof. intros E. unfold AppConfig_new. by rewrite E. Qed.

(** ** Payment *)

Lemma process_payment_spec (method : PaymentMethod) (amount : float) (w : World) :
  wf w →
  ∃ w' l, process_payment method amount w = Some (true, w') ∧
    stdout w' = stdout w ++ [l] ∧
    systems w' = systems w ∧ clock w' = clock w ∧ ticks w' = ticks w ∧
    wf w' ∧ configs_kept w w'.
Proof.
  intros Hwf.
  destruct (AppConfig_new_spec w Hwf)
    as (c & w1 & Hnew & Hinst & [o Ho] & Hsys & Hout & Hclk & Htick & Hwf1 & Hkept).
  destruct method; unfold process_payment;
    rewrite (bind_Some _ _ _ _ _ Hnew);
    rewrite (bind_Some _ _ _ _ _ (config_attr_Some c currency_symbol w1 o Ho));
    (eexists _, _; split; [reflexivity|]); simpl;
    (split_and!; [by rewrite Hout | done | done | done | apply Hwf1 | apply Hkept]).
Qed.

Lemma process_payment_true (method : PaymentMethod) (amount : float) (w w' : World) b :
  process_payment method amount w = Some (b, w') → b = true.
Proof.
  destruct method; unfold process_payment; intros H;
    apply bind_inv in H as (c & w1 & _ & H);
    apply bind_inv in H as (sym & w2 & _ & H);
    apply bind_inv in H as (u & w3 & _ & H);
    by injection H.
Qed.

(** ** Booking *)

(** The dict that a successful booking returns. *)
Lemma booking_truthy (pickup destination : string) (fare : float) :
  truthy (Some (<["pickup" := VStr pickup]>
               (<["destination" := VStr destination]>
               (<["fare" := VFloat fare]> (∅ : gmap string value))))) = true.
Proof. reflexivity. Qed.

Lemma book_ride_body_configured (w : World) self o strategy method
    (pickup destination : string) (d : float) :
  wf w →
  systems w !! self = Some o →
  pricing_strategy o = Some strategy →
  payment_method o = Some method →
  ∃ w' l1 l2 l3,
    book_ride_body self (pickup, destination, d) w
    = Some (Some (<["pickup" := VStr pickup]>
                 (<["destination" := VStr destination]>
                 (<["fare" := VFloat (calculate_fare strategy d)]> ∅))), w') ∧
    stdout w' = stdout w ++ [l1; l2; l3] ∧
    systems w' = systems w ∧ clock w' = clock w ∧ ticks w' = ticks w ∧
    wf w' ∧ configs_kept w w'.
Proof.
  intros Hwf Hself Hp Hm. unfold book_ride_body.
  do 2 step. rewrite Hp, Hm.
  destruct Hwf as [Hi Hs]. destruct (Hs self o Hself) as [oc Hoc].
  do 4 step.
  cbn [AppConfig_instance configs systems stdout clock ticks].
  match goal with |- context [mbind _ _ ?w0] => set (w1 := w0) end.
  assert (Hwf1 : wf w1) by (split; [exact Hi | exact Hs]).
  destruct (process_payment_spec method (calculate_fare strategy d) w1 Hwf1)
    as (w2 & l & Hpay & Hout & Hsys & Hclk & Htick & Hwf2 & Hkept).
  rewrite (bind_Some _ _ _ _ _ Hpay).
  eexists w2, _, _, l. split; [reflexivity|].
  split_and!; try done.
  rewrite Hout. unfold w1. cbn [stdout]. by rewrite <- !app_assoc.
Qed.

Lemma book_ride_body_unset (w : World) self o (args : string * string * float) :
  systems w !! self = Some o →
  pricing_strategy o = None ∨ payment_method o = None →
  book_ride_body self args w = Some (None, printed [error_unset] w).
Proof.
  intros Hself Hnone. destruct args as [[pickup destination] d].
  unfold book_ride_body. do 2 step.
  destruct Hnone as [-> | ->]; [|destruct (pricing_strategy o)]; reflexivity.
Qed.

(** ** The decorators *)

Lemma authenticate_rejected {A R : Type} (func : loc → A → M (option R))
    (w : World) self o (args : A) :
  systems w !! self = Some o →
  is_authenticated o = false →
  authenticate func self args w
  = Some (None, printed [auth_user (user_name o); auth_failed] w).
Proof.
  intros Hself Hauth. unfold authenticate.
  do 3 step. rewrite Hauth. cbn [negb]. step.
  unfold printed, mret, M_ret. cbn. by rewrite <- app_assoc.
Qed.

Lemma authenticate_accepted {A R : Type} (func : loc → A → M (option R))
    (w : World) self o (args : A) :
  systems w !! self = Some o →
  is_authenticated o = true →
  authenticate func self args w
  = func self args (printed [auth_user (user_name o); auth_success] w).
Proof.
  intros Hself Hauth. unfold authenticate.
  do 3 step. rewrite Hauth. cbn [negb]. step.
  unfold printed. cbn. by rewrite <- app_assoc.
Qed.

Lemma log_operation_run {A R : Type} `{Truthy R} (func : loc → A → M R)
    (w w' : World) self (args : A) (result : R) :
  func self args (printed [log_started (clock w (ticks w))] (ticked w))
  = Some (result, w') →
  log_operation func self args w
  = Some (result,
          printed [log_status (if truthy result then "Success" else "Failed")] w').
Proof.
  intros Hrun. unfold log_operation. do 3 step. reflexivity.
Qed.

(** ** The three outcomes of [book_ride] *)

Lemma book_ride_rejected (w : World) self o (pickup destination : string) (d : float) :
  systems w !! self = Some o →
  is_authenticated o = false →
  book_ride self pickup destination d w
  = Some (None, printed [auth_user (user_name o); auth_failed] w).
Proof. intros Hself Hauth. unfold book_ride. by apply authenticate_rejected. Qed.

Lemma book_ride_unset (w : World) self o (pickup destination : string) (d : float) :
  systems w !! self = Some o →
  is_authenticated o = true →
  pricing_strategy o = None ∨ payment_method o = None →
  book_ride self pickup destination d w
  = Some (None,
          printed [auth_user (user_name o); auth_success;
                   log_started (clock w (ticks w)); error_unset;
                   log_status "Failed"] (ticked w)).
Proof.
  intros Hself Hauth Hnone. unfold book_ride.
  rewrite (authenticate_accepted _ w self o _ Hself Hauth).
  erewrite log_operation_run
    by (apply book_ride_body_unset with (o := o); [exact Hself | exact Hnone]).
  unfold printed, ticked. cbn. by rewrite <- !app_assoc.
Qed.

Lemma book_ride_configured (w : World) self o strategy method
    (pickup destination : string) (d : float) :
  wf w →
  systems w !! self = Some o →
  is_authenticated o = true →
  pricing_strategy o = Some strategy →
  payment_method o = Some method →
  ∃ w' l1 l2 l3,
    book_ride self pickup destination d w
    = Some (Some (<["pickup" := VStr pickup]>
                 (<["destination" := VStr destination]>
                 (<["fare" := VFloat (calculate_fare strategy d)]> ∅))), w') ∧
    stdout w' = stdout w ++ [auth_user (user_name o); auth_success;
                             log_started (clock w (ticks w)); l1; l2; l3;
                             log_status "Success"] ∧
    systems w' = systems w ∧ clock w' = clock w ∧ ticks w' = S (ticks w) ∧
    wf w' ∧ configs_kept w w'.
Proof.
  intros Hwf Hself Hauth Hp Hm. unfold book_ride.
  rewrite (authenticate_accepted _ w self o _ Hself Hauth).
  match goal with |- context [log_operation _ _ _ ?w0] => set (w0' := w0) end.
  set (w1 := printed [log_started (clock w0' (ticks w0'))] (ticked w0')).
  assert (Hwf1 : wf w1) by exact Hwf.
  destruct (book_ride_body_configured w1 self o strategy method pickup destination d
              Hwf1 Hself Hp Hm)
    as (w2 & l1 & l2 & l3 & Hrun & Hout & Hsys & Hclk & Htick & Hwf2 & Hkept).
  rewrite (log_operation_run _ _ _ _ _ _ Hrun), booking_truthy.
  eexists _, l1, l2, l3. split; [reflexivity|].
  cbn [printed stdout systems clock ticks].
  split_and!; try done.
  rewrite Hout. unfold w1. cbn. by rewrite <- !app_assoc.
Qed.

(** ** The sample stores are well formed *)

Lemma wf_initial_world (clk : nat → string) : wf (initial_world clk).
Proof. split; [done|]. intros self o H. simpl in H. by rewrite lookup_empty in H. Qed.

Lemma wf_sample_world : wf sample_world.
Proof.
  split; simpl.
  - intros c [= <-]. by eexists.
  - intros self o H.
    assert (Hc : config o = 1%positive).
    { rewrite !lookup_insert in H. repeat case_decide; simplify_eq; done. }
    rewrite Hc. by eexists.
Qed.

(** ** Constants of the pricing strategies *)

Lemma of_int_10 : Float.of_int 10 = S754_finite false 5629499534213120 (-49).
Proof. reflexivity. Qed.

Lemma of_int_25 : Float.of_int 25 = S754_finite false 7036874417766400 (-48).
Proof. reflexivity. Qed.

Lemma calculate_fare_signed (strategy : PricingStrategy) (d : float) (s : bool) :
  signed s d → signed s (calculate_fare strategy d).
Proof.
  intros Hd. destruct strategy; unfold calculate_fare;
    rewrite ?of_int_10, ?of_int_25; by apply mul_signed.
Qed.

Lemma calculate_fare_signed_nonzero (strategy : PricingStrategy) (d : float) (s : bool) :
  Float.valid d = true → signed_nonzero s d →
  signed_nonzero s (calculate_fare strategy d).
Proof.
  intros Hv Hd. destruct strategy; unfold calculate_fare;
    rewrite ?of_int_10, ?of_int_25; (apply mul_signed_nonzero; [done | done |]);
    eexists _, _; (split; [reflexivity|]); split; by vm_compute.
Qed.

(** The fare is the exact product by the rate, represented as a float. *)
Lemma calculate_fare_spec (strategy : PricingStrategy) (d : float) :
  Float.valid d = true →
  calculate_fare strategy d
  = spec_rate_times match strategy with NormalPricing => 10 | SurgePricing => 25 end d.
Proof.
  intros Hv. destruct d as [[]|[]| |s m e]; destruct strategy; try reflexivity.
  - apply (SFmul_rate_times s m e 10 49 Hv).
  - apply (SFmul_rate_times s m e 25 48 Hv).
Qed.

(** ** Assignments and construction *)

Lemma assign_Some (w : World) self o (update : CabBookingSystem → CabBookingSystem) :
  systems w !! self = Some o →
  assign self update w = Some (tt, stored self (update o) w).
Proof. intros E. unfold assign. by rewrite E. Qed.

Lemma assign_inv (w w' : World) self (update : CabBookingSystem → CabBookingSystem) u :
  assign self update w = Some (u, w') →
  ∃ o, systems w !! self = Some o ∧ w' = stored self (update o) w.
Proof.
  unfold assign. destruct (systems w !! self) as [o|] eqn:E; [|done].
  intros [= _ <-]. by exists o.
Qed.

Lemma wf_stored (w : World) self o o' :
  wf w → systems w !! self = Some o → config o' = config o → wf (stored self o' w).
Proof.
  intros [Hi Hs] Hself Hc. split; [exact Hi|]. simpl.
  intros k x. rewrite lookup_insert. case_decide.
  - intros [= <-]. rewrite Hc. by eapply Hs.
  - apply Hs.
Qed.

Lemma CabBookingSystem_init_spec (w : World) (name : string) (auth : bool) :
  wf w →
  ∃ self c w',
    CabBookingSystem_init name auth w = Some (self, w') ∧
    systems w !! self = None ∧
    systems w' = <[self := mkCabBookingSystem name auth None None c]> (systems w) ∧
    AppConfig_instance w' = Some c ∧
    wf w' ∧ configs_kept w w'.
Proof.
  intros Hwf.
  destruct (AppConfig_new_spec w Hwf)
    as (c & w1 & Hnew & Hinst & Hc & Hsys & Hout & Hclk & Htick & Hwf1 & Hkept).
  unfold CabBookingSystem_init. rewrite (bind_Some _ _ _ _ _ Hnew).
  eexists _, c, _. split; [reflexivity|]. simpl.
  split_and!; try done.
  - rewrite <- Hsys. apply fresh_system_None.
  - by rewrite Hsys.
  - destruct Hwf1 as [Hi Hs]. split; [exact Hi|]. simpl.
    intros k x. rewrite lookup_insert. case_decide; [|apply Hs].
    by intros [= <-].
Qed.

(** ** [book_ride] always completes and leaves the orchestrators alone *)

Lemma book_ride_total (w : World) self o (pickup destination : string) (d : float) :
  wf w →
  systems w !! self = Some o →
  ∃ r w',
    book_ride self pickup destination d w = Some (r, w') ∧
    systems w' = systems w ∧ wf w' ∧ configs_kept w w'.
Proof.
  intros Hwf Hself.
  destruct (is_authenticated o) eqn:Hauth;
    [destruct (pricing_strategy o) as [strategy|] eqn:Hp;
       [destruct (payment_method o) as [method|] eqn:Hm|]|].
  - destruct (book_ride_configured w self o strategy method pickup destination d
                Hwf Hself Hauth Hp Hm)
      as (w' & l1 & l2 & l3 & Hrun & _ & Hsys & _ & _ & Hwf' & Hkept).
    eexists _, w'. by split_and!.
  - eexists _, _. split; [apply (book_ride_unset w self o); auto|].
    split_and!; [done | exact Hwf | exact (configs_kept_refl w)].
  - eexists _, _. split; [apply (book_ride_unset w self o); auto|].
    split_and!; [done | exact Hwf | exact (configs_kept_refl w)].
  - eexists _, _. split; [apply (book_ride_rejected w self o); auto|].
    split_and!; [done | exact Hwf | exact (configs_kept_refl w)].
Qed.

Lemma book_ride_self (w w' : World) self (pickup destination : string) (d : float) r :
  book_ride self pickup destination d w = Some (r, w') → is_Some (systems w !! self).
Proof.
  unfold book_ride, authenticate. intros H.
  apply bind_inv in H as (name & w1 & H & _).
  unfold attr in H. destruct (systems w !! self); [by eexists | done].
Qed.

(** ** Every call keeps the store well formed and the configuration as it is *)

Lemma run_call_kept (c : call) (w w' : World) :
  wf w → run_call c w = Some (tt, w') → wf w' ∧ configs_kept w w'.
Proof.
  intros Hwf. destruct c as [|name auth|self strategy|self method|self p q d|method amount];
    cbn [run_call]; intros H.
  - destruct (AppConfig_new_spec w Hwf) as (c & w1 & Hnew & _ & _ & _ & _ & _ & _ & Hwf1 & Hk).
    rewrite (bind_Some _ _ _ _ _ Hnew) in H. by injection H as <-.
  - destruct (CabBookingSystem_init_spec w name auth Hwf)
      as (self & c & w1 & Hnew & _ & _ & _ & Hwf1 & Hk).
    rewrite (bind_Some _ _ _ _ _ Hnew) in H. by injection H as <-.
  - apply assign_inv in H as (o & Hself & ->).
    split; [by eapply wf_stored | exact (configs_kept_refl w)].
  - apply assign_inv in H as (o & Hself & ->).
    split; [by eapply wf_stored | exact (configs_kept_refl w)].
  - apply bind_inv in H as (r & w1 & H & Hret). injection Hret as <-.
    destruct (book_ride_self _ _ _ _ _ _ _ H) as [o Hself].
    destruct (book_ride_total w self o p q d Hwf Hself) as (r' & w2 & Hrun & _ & Hwf2 & Hk).
    rewrite Hrun in H. by injection H as _ <-.
  - destruct (process_payment_spec method amount w Hwf)
      as (w1 & l & Hrun & _ & _ & _ & _ & Hwf1 & Hk).
    rewrite (bind_Some _ _ _ _ _ Hrun) in H. by injection H as <-.
Qed.

Lemma run_calls_kept (cs : list call) (w w' : World) :
  wf w → run_calls cs w = Some (tt, w') → wf w' ∧ configs_kept w w'.
Proof.
  revert w. induction cs as [|c cs IH]; intros w Hwf H; cbn [run_calls] in H.
  - injection H as <-. split; [done | apply configs_kept_refl].
  - apply bind_inv in H as ([] & w1 & Hc & Hcs).
    destruct (run_call_kept c w w1 Hwf Hc) as [Hwf1 Hk1].
    destruct (IH w1 Hwf1 Hcs) as [Hwf' Hk2].
    split; [done | by eapply configs_kept_trans].
Qed.

(** The keys and values of the dict of a successful booking. *)
Lemma booking_fields (pickup destination : string) (fare : float) :
  let r := <["pickup" := VStr pickup]>
           (<["destination" := VStr destination]>
           (<["fare" := VFloat fare]> (∅ : gmap string value))) in
  dom r = {[ "pickup"; "destination"; "fare" ]} ∧
  r !! "pickup" = Some (VStr pickup) ∧
  r !! "destination" = Some (VStr destination) ∧
  r !! "fare" = Some (VFloat fare).
Proof.
  intros r. unfold r. split_and!.
  - rewrite !dom_insert_L, dom_empty_L. set_solver.
  - reflexivity.
  - reflexivity.
  - reflexivity.
Qed.

(** ** The script, run

    Two values of the binary64 product: the float 0.1 at the Normal rate
    gives the float 1.0, and the largest float gives infinity. *)

Example fare_of_a_tenth :
  calculate_fare NormalPricing (S754_finite false 7205759403792794 (-56)) = Float.of_int 1.
Proof. reflexivity. Qed.

Example fare_of_the_largest_float :
  calculate_fare NormalPricing (SFmax_float Float.prec Float.emax) = S754_infinity false.
Proof. reflexivity. Qed.

(** Scenarios 1 and 2 from the start of the process, and scenario 4. *)

Example script_scenarios_1_2 :
  fst <$> (system ← CabBookingSystem_init "John" true; scenario_1_2 system)
            (initial_world sample_clock)
  = Some (Some (<["pickup" := VStr "MG Road"]>
               (<["destination" := VStr "Koramangala"]>
               (<["fare" := VFloat (Float.of_int 50)]> ∅))),
          Some (<["pickup" := VStr "Airport"]>
               (<["destination" := VStr "Whitefield"]>
               (<["fare" := VFloat (Float.of_int 375)]> ∅)))).
Proof. reflexivity. Qed.

Example script_scenario_4 :
  scenario_4 (initial_world sample_clock)
  = Some (None,
          printed [auth_user "Jane"; auth_failed]
            (stored 1%positive
               (mkCabBookingSystem "Jane" false (Some NormalPricing) (Some UPIPayment) 1%positive)
               (mkWorld (Some 1%positive) {[ 1%positive := mkAppConfig "MiniCab" "₹" ]}
                        ∅ [] sample_clock 0%nat))).
Proof. reflexivity. Qed.

(** * The claims *)

(** C3. For every non-negative distance d, the Normal pricing policy's
    fare is exactly 10·d and the Surge pricing policy's fare is exactly
    25·d: it is the float product that Python's [10 * d] denotes, and that
    product is the exact product represented as a float, with no other
    rounding. Consequently the fare is non-negative whenever d is.
    ([Float.valid] singles out, among the representations, the values a
    Python float takes.) *)
Theorem calculate_fare_rate_nonneg (d : float) :
  Float.valid d = true →
  Float.leb Float.zero d = true →
  calculate_fare NormalPricing d = Float.mul (Float.of_int 10) d ∧
  calculate_fare NormalPricing d = spec_rate_times 10 d ∧
  calculate_fare SurgePricing d = Float.mul (Float.of_int 25) d ∧
  calculate_fare SurgePricing d = spec_rate_times 25 d ∧
  ∀ strategy, Float.leb Float.zero (calculate_fare strategy d) = true.
Proof.
  intros Hvalid Hd.
  split_and!; [apply mul_comm | by apply calculate_fare_spec
              | apply mul_comm | by apply calculate_fare_spec |].
  intros strategy. destruct (leb_zero_signed d Hd) as [Hs | ->].
  - by apply signed_leb_zero, calculate_fare_signed.
  - by destruct strategy.
Qed.

Lemma calculate_fare_rate_nonneg_witness :
  Float.valid (Float.of_int 8) = true ∧
  Float.leb Float.zero (Float.of_int 8) = true ∧
  calculate_fare NormalPricing (Float.of_int 8) = Float.mul (Float.of_int 10) (Float.of_int 8) ∧
  calculate_fare NormalPricing (Float.of_int 8) = spec_rate_times 10 (Float.of_int 8) ∧
  calculate_fare SurgePricing (Float.of_int 8) = Float.mul (Float.of_int 25) (Float.of_int 8) ∧
  calculate_fare SurgePricing (Float.of_int 8) = spec_rate_times 25 (Float.of_int 8) ∧
  ∀ strategy, Float.leb Float.zero (calculate_fare strategy (Float.of_int 8)) = true.
Proof.
  split; [reflexivity|]. split; [reflexivity|].
  apply (calculate_fare_rate_nonneg (Float.of_int 8)); reflexivity.
Defined.

(** C5. For every payment variant (UPI, Card, Wallet) and every amount,
    [process_payment] returns [True]: the call completes with that value,
    and no run of it yields any other value. *)
Theorem process_payment_returns_true (method : PaymentMethod) (amount : float) (w : World) :
  wf w →
  (∃ w', process_payment method amount w = Some (true, w')) ∧
  (∀ b w', process_payment method amount w = Some (b, w') → b = true).
Proof.
  intros Hwf. split.
  - destruct (process_payment_spec method amount w Hwf) as (w' & l & H & _).
    by exists w'.
  - intros b w'. apply process_payment_true.
Qed.

Lemma process_payment_returns_true_witness :
  wf sample_world ∧
  (∃ w', process_payment CardPayment (Float.of_int 375) sample_world = Some (true, w')) ∧
  (∀ b w', process_payment CardPayment (Float.of_int 375) sample_world = Some (b, w') →
           b = true).
Proof.
  split; [exact wf_sample_world|].
  apply (process_payment_returns_true CardPayment (Float.of_int 375) sample_world).
  exact wf_sample_world.
Defined.

(** C1. On an orchestrator whose session is authenticated and whose
    pricing policy and payment policy are both set, [book_ride] returns a
    dict (not [None]) whose keys are exactly pickup, destination and fare,
    holding the two arguments and the fare that the active pricing policy
    computes from [distance_km]. *)
Theorem book_ride_returns_booking (w : World) (self : loc) (o : CabBookingSystem)
    (strategy : PricingStrategy) (method : PaymentMethod)
    (pickup destination : string) (distance_km : float) :
  wf w →
  systems w !! self = Some o →
  is_authenticated o = true →
  pricing_strategy o = Some strategy →
  payment_method o = Some method →
  ∃ r w',
    book_ride self pickup destination distance_km w = Some (Some r, w') ∧
    dom r = {[ "pickup"; "destination"; "fare" ]} ∧
    r !! "pickup" = Some (VStr pickup) ∧
    r !! "destination" = Some (VStr destination) ∧
    r !! "fare" = Some (VFloat (calculate_fare strategy distance_km)).
Proof.
  intros Hwf Hself Hauth Hp Hm.
  destruct (book_ride_configured w self o strategy method pickup destination
              distance_km Hwf Hself Hauth Hp Hm) as (w' & l1 & l2 & l3 & Hrun & _).
  eexists _, w'. split; [exact Hrun|]. apply booking_fields.
Qed.

Lemma book_ride_returns_booking_witness :
  ∃ r w',
    book_ride 1%positive "Indiranagar" "HSR Layout" (Float.of_int 8) sample_world
    = Some (Some r, w') ∧
    dom r = {[ "pickup"; "destination"; "fare" ]} ∧
    r !! "pickup" = Some (VStr "Indiranagar") ∧
    r !! "destination" = Some (VStr "HSR Layout") ∧
    r !! "fare" = Some (VFloat (calculate_fare NormalPricing (Float.of_int 8))).
Proof.
  apply (book_ride_returns_booking sample_world 1%positive
           (mkCabBookingSystem "John" true (Some NormalPricing) (Some UPIPayment) 1%positive)
           NormalPricing UPIPayment "Indiranagar" "HSR Layout" (Float.of_int 8)).
  - exact wf_sample_world.
  - reflexivity.
  - reflexivity.
  - reflexivity.
  - reflexivity.
Defined.

(** C2. On an orchestrator whose session is not authenticated,
    [book_ride] returns [None] whatever policies are configured, and the
    store changes by the two lines of the authentication gate only: no
    'Booking started' line (the clock is not read), no ride or fare line,
    no payment line, no access to the configuration. The inner operation
    does not run: the gate gives this outcome whatever function it
    wraps. *)
Theorem book_ride_unauthenticated (w : World) (self : loc) (o : CabBookingSystem)
    (pickup destination : string) (distance_km : float) :
  systems w !! self = Some o →
  is_authenticated o = false →
  book_ride self pickup destination distance_km w
  = Some (None, printed [auth_user (user_name o); auth_failed] w) ∧
  ∀ inner : loc → string * string * float → M (option (gmap string value)),
    authenticate inner self (pickup, destination, distance_km) w
    = Some (None, printed [auth_user (user_name o); auth_failed] w).
Proof.
  intros Hself Hauth. split.
  - by apply book_ride_rejected.
  - intros inner. by apply authenticate_rejected.
Qed.

Lemma book_ride_unauthenticated_witness :
  book_ride 2%positive "Jayanagar" "BTM" (Float.of_int 6) sample_world
  = Some (None, printed [auth_user "Jane"; auth_failed] sample_world) ∧
  ∀ inner : loc → string * string * float → M (option (gmap string value)),
    authenticate inner 2%positive ("Jayanagar", "BTM", Float.of_int 6) sample_world
    = Some (None, printed [auth_user "Jane"; auth_failed] sample_world).
Proof.
  apply (book_ride_unauthenticated sample_world 2%positive
           (mkCabBookingSystem "Jane" false (Some NormalPricing) (Some UPIPayment) 1%positive)
           "Jayanagar" "BTM" (Float.of_int 6)).
  - reflexivity.
  - reflexivity.
Defined.

(** C4. On an orchestrator whose session is authenticated but whose
    pricing policy or payment policy is unset, [book_ride] returns [None];
    the attempt is logged, a 'Booking started' line before the check and a
    'Booking Failed' line after it, with the error line in between; and
    nothing else happens to the store: no payment line, no access to the
    configuration. The check runs inside the logging wrapper: the body
    alone prints the error line, and the wrapper around it adds the two
    log lines. *)
Theorem book_ride_policy_unset (w : World) (self : loc) (o : CabBookingSystem)
    (pickup destination : string) (distance_km : float) :
  systems w !! self = Some o →
  is_authenticated o = true →
  pricing_strategy o = None ∨ payment_method o = None →
  book_ride self pickup destination distance_km w
  = Some (None,
          printed [auth_user (user_name o); auth_success;
                   log_started (clock w (ticks w)); error_unset;
                   log_status "Failed"] (ticked w)) ∧
  log_operation book_ride_body self (pickup, destination, distance_km) w
  = Some (None,
          printed [log_started (clock w (ticks w)); error_unset; log_status "Failed"]
                  (ticked w)) ∧
  book_ride_body self (pickup, destination, distance_km) w
  = Some (None, printed [error_unset] w).
Proof.
  intros Hself Hauth Hnone. split_and!.
  - by apply book_ride_unset.
  - erewrite log_operation_run
      by (apply book_ride_body_unset with (o := o); [exact Hself | exact Hnone]).
    unfold printed, ticked. cbn. by rewrite <- !app_assoc.
  - by apply book_ride_body_unset with (o := o).
Qed.

Lemma book_ride_policy_unset_witness :
  book_ride 3%positive "Airport" "Whitefield" (Float.of_int 15) sample_world
  = Some (None,
          printed [auth_user "Asha"; auth_success;
                   log_started "2024-01-01 12:00:00"; error_unset;
                   log_status "Failed"] (ticked sample_world)) ∧
  log_operation book_ride_body 3%positive ("Airport", "Whitefield", Float.of_int 15)
                sample_world
  = Some (None,
          printed [log_started "2024-01-01 12:00:00"; error_unset; log_status "Failed"]
                  (ticked sample_world)) ∧
  book_ride_body 3%positive ("Airport", "Whitefield", Float.of_int 15) sample_world
  = Some (None, printed [error_unset] sample_world).
Proof.
  apply (book_ride_policy_unset sample_world 3%positive
           (mkCabBookingSystem "Asha" true (Some SurgePricing) None 1%positive)
           "Airport" "Whitefield" (Float.of_int 15)).
  - reflexivity.
  - reflexivity.
  - right. reflexivity.
Defined.

(** C6. Within one process, every access to the shared configuration
    returns the same object with the same two attributes: whatever calls
    precede the first access and whatever calls lie between two accesses,
    the second access returns the reference of the first, leaves the store
    as it is, and finds the application name "MiniCab" and the currency
    symbol "₹" that the first one found. *)
Theorem AppConfig_shared (clk : nat → string) (before : list call) (w1 : World) :
  run_calls before (initial_world clk) = Some (tt, w1) →
  ∃ c w1',
    AppConfig_new w1 = Some (c, w1') ∧
    configs w1' !! c = Some (mkAppConfig "MiniCab" "₹") ∧
    ∀ (between : list call) (w2 : World),
      run_calls between w1' = Some (tt, w2) →
      AppConfig_new w2 = Some (c, w2) ∧
      configs w2 !! c = Some (mkAppConfig "MiniCab" "₹") ∧
      configs w2 = configs w1'.
Proof.
  intros Hrun.
  destruct (run_calls_kept before _ w1 (wf_initial_world clk) Hrun) as [Hwf1 (_ & _ & Hnew1)].
  destruct (AppConfig_new_spec w1 Hwf1)
    as (c & w1' & Hnew & Hinst & [o Ho] & _ & _ & _ & _ & Hwf1' & (_ & _ & Hnew2)).
  assert (Hfields : o = mkAppConfig "MiniCab" "₹").
  { destruct (Hnew2 c o Ho) as [Hold | ->]; [|done].
    destruct (Hnew1 c o Hold) as [Hinit | ->]; [|done].
    simpl in Hinit. by rewrite lookup_empty in Hinit. }
  subst o. exists c, w1'. split_and!; [done | done |].
  intros between w2 Hbetween.
  destruct (run_calls_kept between w1' w2 Hwf1' Hbetween) as [_ (_ & Hsame & _)].
  destruct (Hsame c Hinst) as [Hinst2 Hconfigs].
  split_and!; [by apply AppConfig_new_set | by rewrite Hconfigs | done].
Qed.

Lemma AppConfig_shared_witness :
  ∃ c w1',
    AppConfig_new (stored 1%positive
                     (mkCabBookingSystem "John" true (Some NormalPricing) None 1%positive)
                     (mkWorld (Some 1%positive) {[ 1%positive := mkAppConfig "MiniCab" "₹" ]}
                              ∅ [] sample_clock 0%nat))
    = Some (c, w1') ∧
    configs w1' !! c = Some (mkAppConfig "MiniCab" "₹") ∧
    ∀ (between : list call) (w2 : World),
      run_calls between w1' = Some (tt, w2) →
      AppConfig_new w2 = Some (c, w2) ∧
      configs w2 !! c = Some (mkAppConfig "MiniCab" "₹") ∧
      configs w2 = configs w1'.
Proof.
  apply (AppConfig_shared sample_clock
           [Call_CabBookingSystem "John" true; Call_set_pricing 1%positive NormalPricing]).
  reflexivity.
Defined.

(** C7. In every booking attempt that computes a fare (the session is
    authenticated and both policies are set, the payment policy being one
    of UPI, Card, Wallet), the branch that returns [None] after payment
    processing is not taken: the payment call on the computed fare cannot
    yield [False], and the attempt ends in the success leaf, returning a
    dict and logging 'Booking Success' as its last line. *)
Theorem payment_failure_unreachable (w : World) (self : loc) (o : CabBookingSystem)
    (strategy : PricingStrategy) (method : PaymentMethod)
    (pickup destination : string) (distance_km : float) :
  wf w →
  systems w !! self = Some o →
  is_authenticated o = true →
  pricing_strategy o = Some strategy →
  payment_method o = Some method →
  (∀ w0 paid w1,
     process_payment method (calculate_fare strategy distance_km) w0 = Some (paid, w1) →
     paid = true) ∧
  ∃ r w',
    book_ride self pickup destination distance_km w = Some (Some r, w') ∧
    last (stdout w') = Some (log_status "Success").
Proof.
  intros Hwf Hself Hauth Hp Hm. split.
  - intros w0 paid w1. apply process_payment_true.
  - destruct (book_ride_configured w self o strategy method pickup destination
                distance_km Hwf Hself Hauth Hp Hm)
      as (w' & l1 & l2 & l3 & Hrun & Hout & _).
    eexists _, w'. split; [exact Hrun|].
    rewrite Hout.
    change [auth_user (user_name o); auth_success; log_started (clock w (ticks w));
            l1; l2; l3; log_status "Success"]
      with ([auth_user (user_name o); auth_success; log_started (clock w (ticks w));
             l1; l2; l3] ++ [log_status "Success"]).
    by rewrite app_assoc, last_snoc.
Qed.

Lemma payment_failure_unreachable_witness :
  (∀ w0 paid w1,
     process_payment UPIPayment (calculate_fare NormalPricing (Float.of_int 5)) w0
     = Some (paid, w1) → paid = true) ∧
  ∃ r w',
    book_ride 1%positive "MG Road" "Koramangala" (Float.of_int 5) sample_world
    = Some (Some r, w') ∧
    last (stdout w') = Some (log_status "Success").
Proof.
  apply (payment_failure_unreachable sample_world 1%positive
           (mkCabBookingSystem "John" true (Some NormalPricing) (Some UPIPayment) 1%positive)
           NormalPricing UPIPayment "MG Road" "Koramangala" (Float.of_int 5)).
  - exact wf_sample_world.
  - reflexivity.
  - reflexivity.
  - reflexivity.
  - reflexivity.
Defined.

(** C9. [set_pricing] changes the pricing-policy attribute of the
    orchestrator and nothing else, [set_payment] the payment-method
    attribute and nothing else; [book_ride], whether it succeeds or fails,
    changes no attribute of any orchestrator (user name, authentication
    flag, both policies, configuration reference), and the configuration
    object that the reference names keeps its attributes. *)
Theorem orchestrator_frame (w : World) (self : loc) (o : CabBookingSystem) :
  wf w →
  systems w !! self = Some o →
  (∀ strategy,
     set_pricing self strategy w
     = Some (tt, stored self (mkCabBookingSystem (user_name o) (is_authenticated o)
                                (Some strategy) (payment_method o) (config o)) w)) ∧
  (∀ method,
     set_payment self method w
     = Some (tt, stored self (mkCabBookingSystem (user_name o) (is_authenticated o)
                                (pricing_strategy o) (Some method) (config o)) w)) ∧
  (∀ pickup destination distance_km,
     ∃ r w',
       book_ride self pickup destination distance_km w = Some (r, w') ∧
       systems w' = systems w ∧
       systems w' !! self = Some o ∧
       configs w' !! config o = configs w !! config o).
Proof.
  intros Hwf Hself. split_and!.
  - intros strategy. unfold set_pricing. by rewrite (assign_Some w self o).
  - intros method. unfold set_payment. by rewrite (assign_Some w self o).
  - intros pickup destination d.
    destruct (book_ride_total w self o pickup destination d Hwf Hself)
      as (r & w' & Hrun & Hsys & _ & (Hkept & _ & _)).
    exists r, w'. split_and!; [done | done | by rewrite Hsys |].
    destruct Hwf as [_ Hs]. destruct (Hs self o Hself) as [c Hc].
    by rewrite Hc, (Hkept _ _ Hc).
Qed.

Lemma orchestrator_frame_witness :
  (∀ strategy,
     set_pricing 3%positive strategy sample_world
     = Some (tt, stored 3%positive (mkCabBookingSystem "Asha" true
                                      (Some strategy) None 1%positive) sample_world)) ∧
  (∀ method,
     set_payment 3%positive method sample_world
     = Some (tt, stored 3%positive (mkCabBookingSystem "Asha" true
                                      (Some SurgePricing) (Some method) 1%positive)
                   sample_world)) ∧
  (∀ pickup destination distance_km,
     ∃ r w',
       book_ride 3%positive pickup destination distance_km sample_world = Some (r, w') ∧
       systems w' = systems sample_world ∧
       systems w' !! 3%positive
       = Some (mkCabBookingSystem "Asha" true (Some SurgePricing) None 1%positive) ∧
       configs w' !! 1%positive = configs sample_world !! 1%positive).
Proof.
  apply (orchestrator_frame sample_world 3%positive
           (mkCabBookingSystem "Asha" true (Some SurgePricing) None 1%positive)).
  - exact wf_sample_world.
  - reflexivity.
Defined.

(** C10. Negative distances pass through: for every negative
    [distance_km] ([Float.valid] singles out, among the representations,
    the values a Python float takes), on an authenticated orchestrator
    with both policies set, [book_ride] returns a dict (no validation
    rejects the input) whose fare is the policy's rate times
    [distance_km], that is -(10·|d|) under Normal and -(25·|d|) under
    Surge, and hence negative. *)
Theorem book_ride_negative_distance (w : World) (self : loc) (o : CabBookingSystem)
    (strategy : PricingStrategy) (method : PaymentMethod)
    (pickup destination : string) (distance_km : float) :
  wf w →
  systems w !! self = Some o →
  is_authenticated o = true →
  pricing_strategy o = Some strategy →
  payment_method o = Some method →
  Float.valid distance_km = true →
  Float.ltb distance_km Float.zero = true →
  ∃ r w' fare,
    book_ride self pickup destination distance_km w = Some (Some r, w') ∧
    r !! "fare" = Some (VFloat fare) ∧
    fare = match strategy with
           | NormalPricing => Float.mul distance_km (Float.of_int 10)
           | SurgePricing => Float.mul distance_km (Float.of_int 25)
           end ∧
    fare = match strategy with
           | NormalPricing => spec_rate_times 10 distance_km
           | SurgePricing => spec_rate_times 25 distance_km
           end ∧
    fare = match strategy with
           | NormalPricing => Float.opp (Float.mul (Float.of_int 10) (Float.abs distance_km))
           | SurgePricing => Float.opp (Float.mul (Float.of_int 25) (Float.abs distance_km))
           end ∧
    Float.ltb fare Float.zero = true.
Proof.
  intros Hwf Hself Hauth Hp Hm Hvalid Hneg.
  destruct (book_ride_configured w self o strategy method pickup destination
              distance_km Hwf Hself Hauth Hp Hm) as (w' & l1 & l2 & l3 & Hrun & _).
  apply ltb_zero_signed in Hneg.
  eexists _, w', (calculate_fare strategy distance_km).
  split_and!; [exact Hrun | reflexivity | by destruct strategy | | |].
  - rewrite (calculate_fare_spec strategy distance_km Hvalid). by destruct strategy.
  - rewrite <- (opp_abs_negative distance_km Hneg) at 1.
    destruct strategy; unfold calculate_fare; by rewrite mul_opp_l, mul_comm.
  - by apply signed_ltb_zero, calculate_fare_signed_nonzero.
Qed.

Lemma book_ride_negative_distance_witness :
  ∃ r w' fare,
    book_ride 1%positive "MG Road" "Koramangala" (Float.opp (Float.of_int 5)) sample_world
    = Some (Some r, w') ∧
    r !! "fare" = Some (VFloat fare) ∧
    fare = Float.mul (Float.opp (Float.of_int 5)) (Float.of_int 10) ∧
    fare = spec_rate_times 10 (Float.opp (Float.of_int 5)) ∧
    fare = Float.opp (Float.mul (Float.of_int 10) (Float.abs (Float.opp (Float.of_int 5)))) ∧
    Float.ltb fare Float.zero = true.
Proof.
  apply (book_ride_negative_distance sample_world 1%positive
           (mkCabBookingSystem "John" true (Some NormalPricing) (Some UPIPayment) 1%positive)
           NormalPricing UPIPayment "MG Road" "Koramangala" (Float.opp (Float.of_int 5))).
  - exact wf_sample_world.
  - reflexivity.
  - reflexivity.
  - reflexivity.
  - reflexivity.
  - reflexivity.
  - reflexivity.
Defined.

(** C8. End to end: on an authenticated orchestrator, configuring Normal
    pricing and UPI payment and booking MG Road to Koramangala over 5.0 km
    returns the dict with pickup "MG Road", destination "Koramangala" and
    fare 50.0; replacing the policies by Surge pricing and Card payment
    takes effect for the very next attempt, which over 15.0 km returns a
    dict with fare 375.0. *)
Theorem scenario_1_2_results (w : World) (system : loc) (o : CabBookingSystem) :
  wf w →
  systems w !! system = Some o →
  is_authenticated o = true →
  ∃ r2 w',
    scenario_1_2 system w
    = Some ((Some (<["pickup" := VStr "MG Road"]>
                  (<["destination" := VStr "Koramangala"]>
                  (<["fare" := VFloat (Float.of_int 50)]> ∅))),
             Some r2), w') ∧
    r2 !! "fare" = Some (VFloat (Float.of_int 375)).
Proof.
  intros Hwf Hself Hauth. unfold scenario_1_2, set_pricing, set_payment.
  (* scenario 1 *)
  rewrite (bind_Some _ _ _ _ _ (assign_Some w system o _ Hself)). cbn [user_name is_authenticated].
  set (o1 := mkCabBookingSystem _ _ (Some NormalPricing) _ _).
  assert (Hwf1 : wf (stored system o1 w)) by (by eapply wf_stored).
  assert (Hself1 : systems (stored system o1 w) !! system = Some o1)
    by apply lookup_insert_eq.
  rewrite (bind_Some _ _ _ _ _ (assign_Some _ system o1 _ Hself1)).
  set (o2 := mkCabBookingSystem _ _ _ (Some UPIPayment) _).
  set (w2 := stored system o2 _).
  assert (Hwf2 : wf w2) by (by eapply wf_stored).
  assert (Hself2 : systems w2 !! system = Some o2) by apply lookup_insert_eq.
  destruct (book_ride_configured w2 system o2 NormalPricing UPIPayment
              "MG Road" "Koramangala" (Float.of_int 5) Hwf2 Hself2 Hauth eq_refl eq_refl)
    as (w3 & ? & ? & ? & Hrun1 & _ & Hsys3 & _ & _ & Hwf3 & _).
  rewrite (bind_Some _ _ _ _ _ Hrun1).
  (* scenario 2 *)
  assert (Hself3 : systems w3 !! system = Some o2) by (by rewrite Hsys3).
  rewrite (bind_Some _ _ _ _ _ (assign_Some w3 system o2 _ Hself3)).
  set (o4 := mkCabBookingSystem _ _ (Some SurgePricing) _ _).
  assert (Hwf4 : wf (stored system o4 w3)) by (by eapply wf_stored).
  assert (Hself4 : systems (stored system o4 w3) !! system = Some o4)
    by apply lookup_insert_eq.
  rewrite (bind_Some _ _ _ _ _ (assign_Some _ system o4 _ Hself4)).
  set (o5 := mkCabBookingSystem _ _ _ (Some CardPayment) _).
  set (w5 := stored system o5 _).
  assert (Hwf5 : wf w5) by (by eapply wf_stored).
  assert (Hself5 : systems w5 !! system = Some o5) by apply lookup_insert_eq.
  destruct (book_ride_configured w5 system o5 SurgePricing CardPayment
              "Airport" "Whitefield" (Float.of_int 15) Hwf5 Hself5 Hauth eq_refl eq_refl)
    as (w6 & ? & ? & ? & Hrun2 & _).
  rewrite (bind_Some _ _ _ _ _ Hrun2).
  eexists _, w6. split; reflexivity.
Qed.

Lemma scenario_1_2_results_witness :
  ∃ r2 w',
    scenario_1_2 1%positive sample_world
    = Some ((Some (<["pickup" := VStr "MG Road"]>
                  (<["destination" := VStr "Koramangala"]>
                  (<["fare" := VFloat (Float.of_int 50)]> ∅))),
             Some r2), w') ∧
    r2 !! "fare" = Some (VFloat (Float.of_int 375)).
Proof.
  apply (scenario_1_2_results sample_world 1%positive
           (mkCabBookingSystem "John" true (Some NormalPricing) (Some UPIPayment) 1%positive)).
  - exact wf_sample_world.
  - reflexivity.
  - reflexivity.
Defined.

(** * Further properties *)

(** ** Rounding does not depend on how the number is written

    [binary_round] gives the same float for [m * 2^e] and for
    [(m * 2^j) * 2^(e - j)]; a float that is already a binary64 value is
    its own rounding; a whole number below [2^53] is a binary64 value. *)

Lemma binary_round_aux_scale (s : bool) (M : positive) (E : Z) (k : nat) :
  0 <= fexp Float.prec Float.emax (Zdigits2 (Zpos M) + E) - E ->
  binary_round_aux Float.prec Float.emax s (Zpos (Pos.shiftl_nat M k)) (E - Z.of_nat k) loc_Exact
  = binary_round_aux Float.prec Float.emax s (Zpos M) E loc_Exact.
Proof. intros Hn. unfold binary_round_aux. now rewrite shr_fexp_scale. Qed.

Lemma shiftl_nat_add (p : positive) (a b : nat) :
  Pos.shiftl_nat (Pos.shiftl_nat p a) b = Pos.shiftl_nat p (a + b).
Proof.
  unfold Pos.shiftl_nat. rewrite (Nat.add_comm a b). symmetry. apply Nat.iter_add.
Qed.

Lemma shl_align_nat (M : positive) (E F : Z) :
  shl_align M E F
  = if F <? E then (Pos.shiftl_nat M (Z.to_nat (E - F)), F) else (M, E).
Proof.
  unfold shl_align. destruct (F - E) as [|d|d] eqn:Hd.
  - replace (F <? E) with false by (symmetry; apply Z.ltb_ge; lia). reflexivity.
  - replace (F <? E) with false by (symmetry; apply Z.ltb_ge; lia). reflexivity.
  - replace (F <? E) with true by (symmetry; apply Z.ltb_lt; lia).
    rewrite Pos2Nat.inj_iter. replace (E - F) with (Zpos d) by lia.
    reflexivity.
Qed.

Lemma binary_round_scale (s : bool) (M : positive) (E : Z) (j : nat) :
  binary_round Float.prec Float.emax s (Pos.shiftl_nat M j) (E - Z.of_nat j)
  = binary_round Float.prec Float.emax s M E.
Proof.
  unfold binary_round. rewrite !shl_align_nat, digits2_pos_shiftl.
  replace (Zpos (digits2_pos M) + Z.of_nat j + (E - Z.of_nat j))
    with (Zpos (digits2_pos M) + E) by lia.
  set (F := fexp Float.prec Float.emax (Zpos (digits2_pos M) + E)).
  destruct (F <? E) eqn:HFE; [apply Z.ltb_lt in HFE | apply Z.ltb_ge in HFE].
  - destruct (F <? E - Z.of_nat j) eqn:HFj;
      [apply Z.ltb_lt in HFj | apply Z.ltb_ge in HFj].
    + rewrite shiftl_nat_add. do 2 f_equal. f_equal. lia.
    + replace j with (Z.to_nat (E - F) + (j - Z.to_nat (E - F)))%nat at 1 by lia.
      rewrite <- shiftl_nat_add.
      replace (E - Z.of_nat j) with (F - Z.of_nat (j - Z.to_nat (E - F))) by lia.
      apply binary_round_aux_scale.
      unfold Zdigits2. rewrite digits2_pos_shiftl.
      replace (Zpos (digits2_pos M) + Z.of_nat (Z.to_nat (E - F)) + F)
        with (Zpos (digits2_pos M) + E) by lia.
      fold F. lia.
  - replace (F <? E - Z.of_nat j) with false by (symmetry; apply Z.ltb_ge; lia).
    apply binary_round_aux_scale. unfold Zdigits2. fold F. lia.
Qed.

Lemma binary_round_aux_canonical (s : bool) (M : positive) (E : Z) :
  bounded Float.prec Float.emax M E = true ->
  binary_round_aux Float.prec Float.emax s (Zpos M) E loc_Exact = S754_finite s M E.
Proof.
  unfold bounded, canonical_mantissa. intros Hb.
  apply andb_prop in Hb as [Hc He]. apply Z.eqb_eq in Hc.
  unfold binary_round_aux, shr_fexp, Zdigits2. rewrite Hc, Z.sub_diag.
  cbn [shr shr_record_of_loc shr_m loc_of_shr_record round_nearest_even Zdigits2].
  rewrite Hc, Z.sub_diag. cbn [shr shr_record_of_loc shr_m]. now rewrite He.
Qed.

Lemma digits2_pos_le_prec (n : positive) :
  Zpos n < 2 ^ 53 -> Zpos (digits2_pos n) <= 53.
Proof.
  intros Hn. pose proof (Zdigits2_bounds n) as [Hlo _]. unfold Zdigits2 in Hlo.
  destruct (Z.le_gt_cases (Zpos (digits2_pos n)) 53) as [|Hgt]; [assumption|].
  assert (2 ^ 53 <= 2 ^ (Zpos (digits2_pos n) - 1)) by (apply Z.pow_le_mono_r; lia).
  lia.
Qed.

Lemma binary_round_whole (s : bool) (n : positive) :
  Zpos n < 2 ^ 53 ->
  let j := Z.to_nat (53 - Zpos (digits2_pos n)) in
  binary_round Float.prec Float.emax s n 0 = S754_finite s (Pos.shiftl_nat n j) (- Z.of_nat j) /\
  bounded Float.prec Float.emax (Pos.shiftl_nat n j) (- Z.of_nat j) = true.
Proof.
  intros Hn j. pose proof (digits2_pos_le_prec n Hn) as Hd.
  assert (Hb : bounded Float.prec Float.emax (Pos.shiftl_nat n j) (- Z.of_nat j) = true).
  { unfold bounded, canonical_mantissa. rewrite digits2_pos_shiftl.
    apply andb_true_intro. split.
    - apply Z.eqb_eq. unfold fexp, emin, Float.prec, Float.emax, j. lia.
    - apply Z.leb_le. unfold Float.prec, Float.emax. lia. }
  split; [|exact Hb].
  rewrite <- (binary_round_scale s n 0 j). change (0 - Z.of_nat j) with (- Z.of_nat j).
  unfold binary_round. rewrite shl_align_nat.
  unfold bounded, canonical_mantissa in Hb. apply andb_prop in Hb as [Hc _].
  apply Z.eqb_eq in Hc. rewrite Hc, Z.ltb_irrefl.
  apply binary_round_aux_canonical.
  unfold bounded, canonical_mantissa. rewrite Hc, Z.eqb_refl. simpl.
  apply Z.leb_le. unfold Float.prec, Float.emax. lia.
Qed.

(** X1. Whole-kilometre distances give the fare of the whole product:
    for every integer z of magnitude below 2^53 (so that [float(z)] is z
    itself), the fare of the distance [float(z)] is [float(rate * z)], the
    rate being 10 under Normal and 25 under Surge. *)
Theorem calculate_fare_whole_km (strategy : PricingStrategy) (z : Z) :
  Z.abs z < 2 ^ 53 →
  calculate_fare strategy (Float.of_int z)
  = Float.of_int (match strategy with NormalPricing => 10 | SurgePricing => 25 end * z).
Proof.
  intros Hz. destruct z as [|n|n].
  - by destruct strategy.
  - destruct (binary_round_whole false n) as [Hshape Hb]; [lia|].
    set (j := Z.to_nat (53 - Zpos (digits2_pos n))) in *.
    unfold Float.of_int at 1. unfold binary_normalize. rewrite Hshape.
    rewrite (calculate_fare_spec strategy (S754_finite false (Pos.shiftl_nat n j) _) Hb).
    cbn [spec_rate_times]. rewrite mul_shiftl.
    change (- Z.of_nat j) with (0 - Z.of_nat j).
    rewrite binary_round_scale. by destruct strategy.
  - destruct (binary_round_whole true n) as [Hshape Hb]; [lia|].
    set (j := Z.to_nat (53 - Zpos (digits2_pos n))) in *.
    unfold Float.of_int at 1. unfold binary_normalize. rewrite Hshape.
    rewrite (calculate_fare_spec strategy (S754_finite true (Pos.shiftl_nat n j) _) Hb).
    cbn [spec_rate_times]. rewrite mul_shiftl.
    change (- Z.of_nat j) with (0 - Z.of_nat j).
    rewrite binary_round_scale. by destruct strategy.
Qed.

Lemma calculate_fare_whole_km_witness :
  calculate_fare SurgePricing (Float.of_int 15) = Float.of_int (25 * 15).
Proof. apply (calculate_fare_whole_km SurgePricing 15). reflexivity. Defined.

(** X2. The fare has the sign of the distance and is a number whenever
    the distance is one: it is NaN only for a NaN distance, a zero
    distance gives the zero of the same sign, an infinite distance the
    infinity of the same sign, and any other distance a fare that carries
    its sign bit. *)
Theorem calculate_fare_keeps_sign (strategy : PricingStrategy) (d : float) :
  (calculate_fare strategy d = S754_nan ↔ d = S754_nan) ∧
  (∀ s, signed s d → signed s (calculate_fare strategy d)) ∧
  (∀ s, calculate_fare strategy (S754_zero s) = S754_zero s) ∧
  (∀ s, calculate_fare strategy (S754_infinity s) = S754_infinity s).
Proof.
  split_and!.
  - split.
    + intros Hnan. destruct d as [s|s| |s m e]; [| |done|].
      * pose proof (calculate_fare_signed strategy (S754_zero s) s eq_refl) as H.
        by rewrite Hnan in H.
      * pose proof (calculate_fare_signed strategy (S754_infinity s) s eq_refl) as H.
        by rewrite Hnan in H.
      * pose proof (calculate_fare_signed strategy (S754_finite s m e) s eq_refl) as H.
        by rewrite Hnan in H.
    + intros ->. by destruct strategy.
  - intros s. apply calculate_fare_signed.
  - intros s. by destruct strategy, s.
  - intros s. by destruct strategy, s.
Qed.

(** ** Explicit runs *)

Lemma process_payment_run (w w1 : World) c cfg (method : PaymentMethod) (amount : float) :
  AppConfig_new w = Some (c, w1) →
  configs w1 !! c = Some cfg →
  process_payment method amount w
  = Some (true, printed [payment_line method (currency_symbol cfg) amount] w1).
Proof.
  intros Hnew Hc. destruct method; unfold process_payment;
    rewrite (bind_Some _ _ _ _ _ Hnew); step; reflexivity.
Qed.

Lemma CabBookingSystem_init_run (w w0 : World) c (name : string) (auth : bool) :
  AppConfig_new w = Some (c, w0) →
  CabBookingSystem_init name auth w
  = Some (fresh (dom (systems w0)),
          stored (fresh (dom (systems w0))) (mkCabBookingSystem name auth None None c) w0).
Proof. intros Hnew. unfold CabBookingSystem_init. by rewrite (bind_Some _ _ _ _ _ Hnew). Qed.

Lemma book_ride_run (w : World) self o cfg strategy method
    (pickup destination : string) (d : float) :
  systems w !! self = Some o →
  AppConfig_instance w = Some (config o) →
  configs w !! config o = Some cfg →
  is_authenticated o = true →
  pricing_strategy o = Some strategy →
  payment_method o = Some method →
  book_ride self pickup destination d w
  = Some (Some (booking pickup destination (calculate_fare strategy d)),
          printed [auth_user (user_name o); auth_success;
                   log_started (clock w (ticks w));
                   ride_line pickup destination d;
                   fare_line (currency_symbol cfg) (calculate_fare strategy d);
                   payment_line method (currency_symbol cfg) (calculate_fare strategy d);
                   log_status "Success"] (ticked w)).
Proof.
  intros Hself Hinst Hcfg Hauth Hp Hm. unfold book_ride.
  rewrite (authenticate_accepted _ w self o _ Hself Hauth).
  match goal with |- context [log_operation _ _ _ ?w0] => set (w1 := w0) end.
  set (w2 := printed [log_started (clock w1 (ticks w1))] (ticked w1)).
  assert (Hbody : book_ride_body self (pickup, destination, d) w2
                  = Some (Some (booking pickup destination (calculate_fare strategy d)),
                          printed [ride_line pickup destination d;
                                   fare_line (currency_symbol cfg) (calculate_fare strategy d);
                                   payment_line method (currency_symbol cfg)
                                                (calculate_fare strategy d)] w2)).
  { assert (Hself2 : systems w2 !! self = Some o) by exact Hself.
    assert (Hcfg2 : configs w2 !! config o = Some cfg) by exact Hcfg.
    unfold book_ride_body. do 2 step. rewrite Hp, Hm. do 4 step.
    erewrite bind_Some
      by (apply process_payment_run with (c := config o) (cfg := cfg);
          [apply AppConfig_new_set; exact Hinst | exact Hcfg]).
    unfold printed, booking, mret, M_ret. cbn. by rewrite <- !app_assoc. }
  rewrite (log_operation_run _ _ _ _ _ _ Hbody).
  change (truthy (Some (booking pickup destination (calculate_fare strategy d))))
    with true.
  unfold printed, ticked, w2, w1. cbn. by rewrite <- !app_assoc.
Qed.

(** ** The shared configuration *)

Lemma shared_config_wf (w : World) : shared_config w → wf w.
Proof.
  unfold shared_config. destruct (AppConfig_instance w) as [c|] eqn:Hi.
  - intros [Hc Hs]. split.
    + intros c' Hc'. rewrite Hi in Hc'. injection Hc' as <-.
      rewrite Hc, lookup_singleton_eq. by eexists.
    + intros self o Ho. rewrite (Hs self o Ho), Hc, lookup_singleton_eq. by eexists.
  - intros [Hc Hs]. split.
    + intros c' Hc'. by rewrite Hi in Hc'.
    + intros self o Ho. by rewrite Hs, lookup_empty in Ho.
Qed.

Lemma shared_config_initial (clk : nat → string) : shared_config (initial_world clk).
Proof. by split. Qed.

Lemma shared_config_sample : shared_config sample_world.
Proof.
  split; [reflexivity|]. intros self o H. simpl in H.
  rewrite !lookup_insert in H. repeat case_decide; simplify_eq; done.
Qed.

(** In a store with a shared configuration, [AppConfig()] leaves a store
    with a shared configuration whose one object it returns. *)
Lemma shared_config_new (w : World) :
  shared_config w →
  ∃ c w1,
    AppConfig_new w = Some (c, w1) ∧
    AppConfig_instance w1 = Some c ∧
    configs w1 = {[ c := mkAppConfig "MiniCab" "₹" ]} ∧
    systems w1 = systems w ∧ stdout w1 = stdout w ∧
    clock w1 = clock w ∧ ticks w1 = ticks w ∧
    shared_config w1.
Proof.
  intros Hsh. pose proof Hsh as Hsh'. unfold shared_config in Hsh'.
  unfold AppConfig_new. destruct (AppConfig_instance w) as [c|] eqn:Hi.
  - destruct Hsh' as [Hc Hs]. exists c, w. by split_and!.
  - destruct Hsh' as [Hc Hs]. eexists _, _. split; [reflexivity|]. simpl.
    rewrite Hc, insert_empty. split_and!; try done.
    unfold shared_config. simpl. rewrite Hs. split; [done|].
    intros self o Ho. by rewrite lookup_empty in Ho.
Qed.

Lemma shared_config_some (w : World) self o :
  shared_config w →
  systems w !! self = Some o →
  AppConfig_instance w = Some (config o) ∧
  configs w !! config o = Some (mkAppConfig "MiniCab" "₹").
Proof.
  unfold shared_config. intros Hsh Ho.
  destruct (AppConfig_instance w) as [c|].
  - destruct Hsh as [Hc Hs]. rewrite (Hs self o Ho), Hc, lookup_singleton_eq. done.
  - destruct Hsh as [_ Hs]. by rewrite Hs, lookup_empty in Ho.
Qed.

Lemma shared_config_stored (w : World) self o o' :
  shared_config w → systems w !! self = Some o → config o' = config o →
  shared_config (stored self o' w).
Proof.
  intros Hsh Ho Hc. destruct (shared_config_some w self o Hsh Ho) as [Hi _].
  unfold shared_config in *. cbn [stored AppConfig_instance configs systems].
  rewrite Hi in *. destruct Hsh as [Hcs Hs]. split; [done|].
  intros k x. rewrite lookup_insert. case_decide; [|apply Hs].
  by intros [= <-].
Qed.

Lemma run_call_shared (c : call) (w w' : World) :
  shared_config w → run_call c w = Some (tt, w') → shared_config w'.
Proof.
  intros Hsh.
  destruct c as [|name auth|self strategy|self method|self p q d|method amount];
    cbn [run_call]; intros H.
  - destruct (shared_config_new w Hsh) as (c & w1 & Hnew & _ & _ & _ & _ & _ & _ & Hsh1).
    rewrite (bind_Some _ _ _ _ _ Hnew) in H. by injection H as <-.
  - destruct (shared_config_new w Hsh)
      as (c & w1 & Hnew & Hi & Hc & _ & _ & _ & _ & Hsh1).
    rewrite (bind_Some _ _ _ _ _ (CabBookingSystem_init_run w w1 c name auth Hnew)) in H.
    injection H as <-.
    unfold shared_config in *. cbn [stored AppConfig_instance configs systems].
    rewrite Hi in *. destruct Hsh1 as [_ Hs]. split; [done|].
    intros k x. rewrite lookup_insert. case_decide; [|apply Hs].
    by intros [= <-].
  - apply assign_inv in H as (o & Hself & ->). by eapply shared_config_stored.
  - apply assign_inv in H as (o & Hself & ->). by eapply shared_config_stored.
  - apply bind_inv in H as (r & w1 & H & Hret). injection Hret as <-.
    destruct (book_ride_self _ _ _ _ _ _ _ H) as [o Hself].
    destruct (shared_config_some w self o Hsh Hself) as [Hi Hc].
    destruct (book_ride_total w self o p q d (shared_config_wf w Hsh) Hself)
      as (r' & w2 & Hrun & Hsys & _ & (_ & Hkept & _)).
    rewrite Hrun in H. injection H as _ <-.
    destruct (Hkept _ Hi) as [Hi2 Hc2].
    unfold shared_config in *. rewrite Hi in Hsh. rewrite Hi2, Hc2, Hsys. exact Hsh.
  - destruct (shared_config_new w Hsh)
      as (c & w1 & Hnew & Hi & Hc & _ & _ & _ & _ & Hsh1).
    assert (Hcfg : configs w1 !! c = Some (mkAppConfig "MiniCab" "₹"))
      by (by rewrite Hc, lookup_singleton_eq).
    rewrite (bind_Some _ _ _ _ _ (process_payment_run w w1 c _ method amount Hnew Hcfg)) in H.
    injection H as <-. exact Hsh1.
Qed.

Lemma run_calls_shared (cs : list call) (w w' : World) :
  shared_config w → run_calls cs w = Some (tt, w') → shared_config w'.
Proof.
  revert w. induction cs as [|c cs IH]; intros w Hsh H; cbn [run_calls] in H.
  - by injection H as <-.
  - apply bind_inv in H as ([] & w1 & Hc & Hcs).
    eapply IH; [|exact Hcs]. by eapply run_call_shared.
Qed.

(** X3. A payment prints one line and does nothing else to the output: the
    line names the method, and shows the currency symbol of the shared
    configuration followed by the amount it was given. The configuration
    is obtained by [AppConfig()], so a payment made before anything else
    creates it, with the symbol "₹". *)
Theorem process_payment_notice (method : PaymentMethod) (amount : float) (w : World) :
  wf w →
  ∃ c cfg w1,
    AppConfig_new w = Some (c, w1) ∧
    configs w1 !! c = Some cfg ∧
    process_payment method amount w
    = Some (true, printed [payment_line method (currency_symbol cfg) amount] w1) ∧
    (AppConfig_instance w = None → cfg = mkAppConfig "MiniCab" "₹").
Proof.
  intros Hwf.
  destruct (AppConfig_new_spec w Hwf) as (c & w1 & Hnew & _ & [cfg Hcfg] & _).
  exists c, cfg, w1. split_and!; [done | done | by apply process_payment_run with (c := c) |].
  intros Hnone. unfold AppConfig_new in Hnew. rewrite Hnone in Hnew.
  injection Hnew as <- <-. simpl in Hcfg. rewrite lookup_insert_eq in Hcfg. congruence.
Qed.

Lemma process_payment_notice_witness :
  ∃ c cfg w1,
    AppConfig_new (initial_world sample_clock) = Some (c, w1) ∧
    configs w1 !! c = Some cfg ∧
    process_payment WalletPayment (Float.of_int 80) (initial_world sample_clock)
    = Some (true, printed [payment_line WalletPayment (currency_symbol cfg)
                                        (Float.of_int 80)] w1) ∧
    (AppConfig_instance (initial_world sample_clock) = None →
     cfg = mkAppConfig "MiniCab" "₹").
Proof.
  apply (process_payment_notice WalletPayment (Float.of_int 80) (initial_world sample_clock)).
  exact (wf_initial_world sample_clock).
Defined.

(** X4. Constructing an orchestrator creates a new object, distinct from
    every orchestrator of the store, with the given name and flag, no
    pricing strategy, no payment method, and the shared configuration as
    its [config]; the orchestrators that exist keep their attributes and
    nothing is printed. *)
Theorem CabBookingSystem_init_fresh (name : string) (auth : bool) (w : World) :
  wf w →
  ∃ self c w0,
    AppConfig_new w = Some (c, w0) ∧
    CabBookingSystem_init name auth w
    = Some (self, stored self (mkCabBookingSystem name auth None None c) w0) ∧
    systems w !! self = None ∧
    AppConfig_instance w0 = Some c ∧
    (∀ other o, systems w !! other = Some o → other ≠ self) ∧
    (∀ other, other ≠ self →
       systems (stored self (mkCabBookingSystem name auth None None c) w0) !! other
       = systems w !! other) ∧
    stdout w0 = stdout w.
Proof.
  intros Hwf.
  destruct (AppConfig_new_spec w Hwf)
    as (c & w0 & Hnew & Hinst & _ & Hsys & Hout & _).
  exists (fresh (dom (systems w0))), c, w0.
  assert (Hfresh : systems w !! fresh (dom (systems w0)) = None)
    by (rewrite <- Hsys; apply fresh_system_None).
  split_and!; try done.
  - by apply CabBookingSystem_init_run.
  - intros other o Ho ->. congruence.
  - intros other Hne. cbn [stored systems]. rewrite lookup_insert_ne by done.
    by rewrite Hsys.
Qed.

Lemma CabBookingSystem_init_fresh_witness :
  ∃ self c w0,
    AppConfig_new sample_world = Some (c, w0) ∧
    CabBookingSystem_init "Ravi" true sample_world
    = Some (self, stored self (mkCabBookingSystem "Ravi" true None None c) w0) ∧
    systems sample_world !! self = None ∧
    AppConfig_instance w0 = Some c ∧
    (∀ other o, systems sample_world !! other = Some o → other ≠ self) ∧
    (∀ other, other ≠ self →
       systems (stored self (mkCabBookingSystem "Ravi" true None None c) w0) !! other
       = systems sample_world !! other) ∧
    stdout w0 = stdout sample_world.
Proof.
  apply (CabBookingSystem_init_fresh "Ravi" true sample_world).
  exact wf_sample_world.
Defined.

(** X5. A booking needs both policies. On a newly constructed,
    authenticated orchestrator, booking at once returns [None], and so
    does booking after only the pricing strategy or only the payment
    method has been set; after both have been set, in this order,
    booking returns the dict with the fare of the chosen strategy. *)
Theorem booking_needs_both_policies (name : string) (strategy : PricingStrategy)
    (method : PaymentMethod) (pickup destination : string) (distance_km : float)
    (w : World) :
  wf w →
  (∃ w', (CabBookingSystem_init name true ≫= λ self,
          book_ride self pickup destination distance_km) w = Some (None, w')) ∧
  (∃ w', (CabBookingSystem_init name true ≫= λ self,
          set_pricing self strategy;;
          book_ride self pickup destination distance_km) w = Some (None, w')) ∧
  (∃ w', (CabBookingSystem_init name true ≫= λ self,
          set_payment self method;;
          book_ride self pickup destination distance_km) w = Some (None, w')) ∧
  (∃ w', (CabBookingSystem_init name true ≫= λ self,
          set_pricing self strategy;;
          set_payment self method;;
          book_ride self pickup destination distance_km) w
         = Some (Some (booking pickup destination (calculate_fare strategy distance_km)),
                 w')).
Proof.
  intros Hwf.
  destruct (CabBookingSystem_init_spec w name true Hwf)
    as (self & c & w1 & Hinit & _ & Hsys & _ & Hwf1 & _).
  set (o := mkCabBookingSystem name true None None c) in *.
  assert (Hself : systems w1 !! self = Some o) by (by rewrite Hsys, lookup_insert_eq).
  rewrite !(bind_Some _ _ _ _ _ Hinit). unfold set_pricing, set_payment.
  split_and!.
  - eexists. apply (book_ride_unset w1 self o); auto.
  - rewrite (bind_Some _ _ _ _ _ (assign_Some w1 self o _ Hself)).
    eexists. eapply book_ride_unset; [apply lookup_insert_eq | done | by right].
  - rewrite (bind_Some _ _ _ _ _ (assign_Some w1 self o _ Hself)).
    eexists. eapply book_ride_unset; [apply lookup_insert_eq | done | by left].
  - rewrite (bind_Some _ _ _ _ _ (assign_Some w1 self o _ Hself)).
    set (o1 := mkCabBookingSystem _ _ (Some strategy) _ _).
    assert (Hwf2 : wf (stored self o1 w1)) by (by eapply wf_stored).
    assert (Hself2 : systems (stored self o1 w1) !! self = Some o1)
      by apply lookup_insert_eq.
    rewrite (bind_Some _ _ _ _ _ (assign_Some _ self o1 _ Hself2)).
    set (o2 := mkCabBookingSystem _ _ _ (Some method) _).
    set (w3 := stored self o2 _).
    assert (Hwf3 : wf w3) by (by eapply wf_stored).
    assert (Hself3 : systems w3 !! self = Some o2) by apply lookup_insert_eq.
    destruct (book_ride_configured w3 self o2 strategy method pickup destination
                distance_km Hwf3 Hself3 eq_refl eq_refl eq_refl)
      as (w' & ? & ? & ? & Hrun & _).
    by exists w'.
Qed.

Lemma booking_needs_both_policies_witness :
  (∃ w', (CabBookingSystem_init "Ravi" true ≫= λ self,
          book_ride self "Hebbal" "Majestic" (Float.of_int 12)) sample_world
         = Some (None, w')) ∧
  (∃ w', (CabBookingSystem_init "Ravi" true ≫= λ self,
          set_pricing self SurgePricing;;
          book_ride self "Hebbal" "Majestic" (Float.of_int 12)) sample_world
         = Some (None, w')) ∧
  (∃ w', (CabBookingSystem_init "Ravi" true ≫= λ self,
          set_payment self WalletPayment;;
          book_ride self "Hebbal" "Majestic" (Float.of_int 12)) sample_world
         = Some (None, w')) ∧
  (∃ w', (CabBookingSystem_init "Ravi" true ≫= λ self,
          set_pricing self SurgePricing;;
          set_payment self WalletPayment;;
          book_ride self "Hebbal" "Majestic" (Float.of_int 12)) sample_world
         = Some (Some (booking "Hebbal" "Majestic"
                               (calculate_fare SurgePricing (Float.of_int 12))), w')).
Proof.
  apply (booking_needs_both_policies "Ravi" SurgePricing WalletPayment
           "Hebbal" "Majestic" (Float.of_int 12) sample_world).
  exact wf_sample_world.
Defined.

(** ** Setters *)

Lemma stored_stored (w : World) self o1 o2 :
  stored self o2 (stored self o1 w) = stored self o2 w.
Proof. unfold stored. cbn. by rewrite insert_insert_eq. Qed.

Lemma assign_None (w : World) self (update : CabBookingSystem → CabBookingSystem) :
  systems w !! self = None → assign self update w = None.
Proof. intros E. unfold assign. by rewrite E. Qed.

Lemma assign_assign (w : World) self (f g : CabBookingSystem → CabBookingSystem) :
  (assign self f;; assign self g) w = assign self (g ∘ f) w.
Proof.
  destruct (systems w !! self) as [o|] eqn:Hself.
  - rewrite (bind_Some _ _ _ _ _ (assign_Some w self o f Hself)).
    rewrite (assign_Some (stored self (f o) w) self (f o) g) by apply lookup_insert_eq.
    rewrite (assign_Some w self o (g ∘ f) Hself). by rewrite stored_stored.
  - unfold mbind, M_bind. by rewrite !assign_None.
Qed.

(** X6. The setters overwrite and commute: setting the pricing strategy
    (or the payment method) twice leaves the second value, as if the
    first call had not been made, and setting the strategy and the method
    of one orchestrator gives the same store in either order. *)
Theorem setters_overwrite_and_commute (self : loc) (w : World)
    (s1 s2 : PricingStrategy) (m1 m2 : PaymentMethod) :
  (set_pricing self s1;; set_pricing self s2) w = set_pricing self s2 w ∧
  (set_payment self m1;; set_payment self m2) w = set_payment self m2 w ∧
  (set_pricing self s1;; set_payment self m1) w
  = (set_payment self m1;; set_pricing self s1) w.
Proof.
  unfold set_pricing, set_payment. rewrite !assign_assign.
  destruct (systems w !! self) as [o|] eqn:Hself.
  - by rewrite !(assign_Some w self o).
  - by rewrite !assign_None.
Qed.

(** X7. The configuration is a singleton in every store the module's
    calls can produce from the start of the process: either nothing has
    been created, or exactly one [AppConfig] object exists, the class
    attribute names it, its attributes are "MiniCab" and "₹", and it is
    the [config] of every orchestrator. *)
Theorem reachable_store_shares_config (clk : nat → string) (cs : list call) (w : World) :
  run_calls cs (initial_world clk) = Some (tt, w) →
  match AppConfig_instance w with
  | None => configs w = ∅ ∧ systems w = ∅
  | Some c =>
      configs w = {[ c := mkAppConfig "MiniCab" "₹" ]} ∧
      ∀ self o, systems w !! self = Some o → config o = c
  end.
Proof.
  intros Hrun.
  exact (run_calls_shared cs _ w (shared_config_initial clk) Hrun).
Qed.

Lemma reachable_store_shares_config_witness :
  configs (printed [payment_line CardPayment "₹" (Float.of_int 7)]
             (stored 1%positive (mkCabBookingSystem "John" true None None 1%positive)
                (mkWorld (Some 1%positive) {[ 1%positive := mkAppConfig "MiniCab" "₹" ]}
                         ∅ [] sample_clock 0%nat)))
  = {[ 1%positive := mkAppConfig "MiniCab" "₹" ]} ∧
  ∀ self o,
    systems (printed [payment_line CardPayment "₹" (Float.of_int 7)]
               (stored 1%positive (mkCabBookingSystem "John" true None None 1%positive)
                  (mkWorld (Some 1%positive) {[ 1%positive := mkAppConfig "MiniCab" "₹" ]}
                           ∅ [] sample_clock 0%nat))) !! self = Some o →
    config o = 1%positive.
Proof.
  apply (reachable_store_shares_config sample_clock
           [Call_CabBookingSystem "John" true;
            Call_process_payment CardPayment (Float.of_int 7)]
           (printed [payment_line CardPayment "₹" (Float.of_int 7)]
              (stored 1%positive (mkCabBookingSystem "John" true None None 1%positive)
                 (mkWorld (Some 1%positive) {[ 1%positive := mkAppConfig "MiniCab" "₹" ]}
                          ∅ [] sample_clock 0%nat)))).
  reflexivity.
Defined.

(** X8. What a successful booking prints and does. In a store with a
    shared configuration, on an authenticated orchestrator with both
    policies set, [book_ride] returns the dict and prints exactly seven
    lines, in this order: the user, the authentication success, the
    'Booking started' line with the clock reading, the ride with the
    distance as given, the fare with the currency symbol, the payment line
    of the chosen method with the same symbol and the same fare, and
    'Booking Success'. Apart from these lines and the one reading of the
    clock the store does not change. *)
Theorem book_ride_success_transcript (w : World) (self : loc) (o : CabBookingSystem)
    (strategy : PricingStrategy) (method : PaymentMethod)
    (pickup destination : string) (distance_km : float) :
  shared_config w →
  systems w !! self = Some o →
  is_authenticated o = true →
  pricing_strategy o = Some strategy →
  payment_method o = Some method →
  book_ride self pickup destination distance_km w
  = Some (Some (booking pickup destination (calculate_fare strategy distance_km)),
          printed [auth_user (user_name o); auth_success;
                   log_started (clock w (ticks w));
                   ride_line pickup destination distance_km;
                   fare_line "₹" (calculate_fare strategy distance_km);
                   payment_line method "₹" (calculate_fare strategy distance_km);
                   log_status "Success"] (ticked w)).
Proof.
  intros Hsh Hself Hauth Hp Hm.
  destruct (shared_config_some w self o Hsh Hself) as [Hi Hc].
  exact (book_ride_run w self o _ strategy method pickup destination distance_km
           Hself Hi Hc Hauth Hp Hm).
Qed.

Lemma book_ride_success_transcript_witness :
  book_ride 1%positive "Indiranagar" "HSR Layout" (Float.of_int 8) sample_world
  = Some (Some (booking "Indiranagar" "HSR Layout"
                        (calculate_fare NormalPricing (Float.of_int 8))),
          printed [auth_user "John"; auth_success;
                   log_started (sample_clock 0%nat);
                   ride_line "Indiranagar" "HSR Layout" (Float.of_int 8);
                   fare_line "₹" (calculate_fare NormalPricing (Float.of_int 8));
                   payment_line UPIPayment "₹" (calculate_fare NormalPricing (Float.of_int 8));
                   log_status "Success"] (ticked sample_world)).
Proof.
  apply (book_ride_success_transcript sample_world 1%positive
           (mkCabBookingSystem "John" true (Some NormalPricing) (Some UPIPayment) 1%positive)
           NormalPricing UPIPayment "Indiranagar" "HSR Layout" (Float.of_int 8)).
  - exact shared_config_sample.
  - reflexivity.
  - reflexivity.
  - reflexivity.
  - reflexivity.
Defined.

(** ** The session of an orchestrator *)

Lemma same_session_refl (o : CabBookingSystem) : same_session o o.
Proof. by split_and!. Qed.

Lemma same_session_trans (o1 o2 o3 : CabBookingSystem) :
  same_session o1 o2 → same_session o2 o3 → same_session o1 o3.
Proof. intros (? & ? & ?) (? & ? & ?). split_and!; congruence. Qed.

Lemma run_call_session (c : call) (w w' : World) self o :
  wf w → systems w !! self = Some o → run_call c w = Some (tt, w') →
  ∃ o', systems w' !! self = Some o' ∧ same_session o o'.
Proof.
  intros Hwf Hself.
  destruct c as [|name auth|self' strategy|self' method|self' p q d|method amount];
    cbn [run_call]; intros H.
  - destruct (AppConfig_new_spec w Hwf) as (c & w1 & Hnew & _ & _ & Hsys & _).
    rewrite (bind_Some _ _ _ _ _ Hnew) in H. injection H as <-.
    exists o. rewrite Hsys. split; [done | apply same_session_refl].
  - destruct (CabBookingSystem_init_spec w name auth Hwf)
      as (new & c & w1 & Hinit & Hnone & Hsys & _).
    rewrite (bind_Some _ _ _ _ _ Hinit) in H. injection H as <-.
    exists o. rewrite Hsys, lookup_insert_ne by congruence.
    split; [done | apply same_session_refl].
  - apply assign_inv in H as (o1 & Hself' & ->). cbn [stored systems].
    rewrite lookup_insert. case_decide as Heq.
    + subst self'. rewrite Hself in Hself'. injection Hself' as <-.
      eexists. split; [reflexivity|]. by split_and!.
    + exists o. split; [done | apply same_session_refl].
  - apply assign_inv in H as (o1 & Hself' & ->). cbn [stored systems].
    rewrite lookup_insert. case_decide as Heq.
    + subst self'. rewrite Hself in Hself'. injection Hself' as <-.
      eexists. split; [reflexivity|]. by split_and!.
    + exists o. split; [done | apply same_session_refl].
  - apply bind_inv in H as (r & w1 & H & Hret). injection Hret as <-.
    destruct (book_ride_self _ _ _ _ _ _ _ H) as [o1 Hself'].
    destruct (book_ride_total w self' o1 p q d Hwf Hself') as (r' & w2 & Hrun & Hsys & _).
    rewrite Hrun in H. injection H as _ <-.
    exists o. rewrite Hsys. split; [done | apply same_session_refl].
  - destruct (process_payment_spec method amount w Hwf) as (w1 & l & Hrun & _ & Hsys & _).
    rewrite (bind_Some _ _ _ _ _ Hrun) in H. injection H as <-.
    exists o. rewrite Hsys. split; [done | apply same_session_refl].
Qed.

Lemma run_calls_session (cs : list call) (w w' : World) self o :
  wf w → systems w !! self = Some o → run_calls cs w = Some (tt, w') →
  ∃ o', systems w' !! self = Some o' ∧ same_session o o'.
Proof.
  revert w o. induction cs as [|c cs IH]; intros w o Hwf Hself H; cbn [run_calls] in H.
  - injection H as <-. exists o. split; [done | apply same_session_refl].
  - apply bind_inv in H as ([] & w1 & Hc & Hcs).
    destruct (run_call_session c w w1 self o Hwf Hself Hc) as (o1 & Hself1 & Hs1).
    destruct (run_call_kept c w w1 Hwf Hc) as [Hwf1 _].
    destruct (IH w1 o1 Hwf1 Hself1 Hcs) as (o' & Hself' & Hs').
    exists o'. split; [done | by eapply same_session_trans].
Qed.

(** X9. The session of an orchestrator never changes: whatever calls of
    the module follow, the orchestrator still exists and has the user
    name, the authentication flag and the configuration it was
    constructed with. In particular an orchestrator that is not
    authenticated stays locked out: after any sequence of calls, every
    booking on it returns [None] and prints the two lines of the gate. *)
Theorem session_never_changes (cs : list call) (w w' : World) (self : loc)
    (o : CabBookingSystem) :
  wf w →
  systems w !! self = Some o →
  run_calls cs w = Some (tt, w') →
  ∃ o',
    systems w' !! self = Some o' ∧
    user_name o' = user_name o ∧
    is_authenticated o' = is_authenticated o ∧
    config o' = config o ∧
    (is_authenticated o = false →
     ∀ pickup destination distance_km,
       book_ride self pickup destination distance_km w'
       = Some (None, printed [auth_user (user_name o); auth_failed] w')).
Proof.
  intros Hwf Hself Hrun.
  destruct (run_calls_session cs w w' self o Hwf Hself Hrun)
    as (o' & Hself' & Hname & Hauth & Hconfig).
  exists o'. split_and!; try done.
  intros Hfalse pickup destination d. rewrite <- Hname.
  apply book_ride_rejected; [done | congruence].
Qed.

Lemma session_never_changes_witness :
  ∃ o',
    systems (stored 2%positive
               (mkCabBookingSystem "Jane" false (Some SurgePricing) (Some CardPayment)
                                   1%positive) sample_world) !! 2%positive = Some o' ∧
    user_name o' = "Jane" ∧
    is_authenticated o' = false ∧
    config o' = 1%positive ∧
    (false = false →
     ∀ pickup destination distance_km,
       book_ride 2%positive pickup destination distance_km
         (stored 2%positive
            (mkCabBookingSystem "Jane" false (Some SurgePricing) (Some CardPayment)
                                1%positive) sample_world)
       = Some (None,
               printed [auth_user "Jane"; auth_failed]
                 (stored 2%positive
                    (mkCabBookingSystem "Jane" false (Some SurgePricing) (Some CardPayment)
                                        1%positive) sample_world))).
Proof.
  apply (session_never_changes
           [Call_set_pricing 2%positive SurgePricing; Call_set_payment 2%positive CardPayment]
           sample_world _ 2%positive
           (mkCabBookingSystem "Jane" false (Some NormalPricing) (Some UPIPayment) 1%positive)).
  - exact wf_sample_world.
  - reflexivity.
  - reflexivity.
Defined.

(** X10. The logging wrapper returns what the wrapped function returns
    and reports its truth value, not whether it is [None]: the status line
    says 'Success' for a dict that is not empty, and 'Failed' for [None]
    and also for an empty dict, which is returned all the same. *)
Theorem log_operation_reports_truthiness {A V : Type}
    (func : loc → A → M (option (gmap string V)))
    (w w' : World) (self : loc) (args : A) (result : option (gmap string V)) :
  func self args (printed [log_started (clock w (ticks w))] (ticked w))
  = Some (result, w') →
  ∃ status,
    log_operation func self args w = Some (result, printed [log_status status] w') ∧
    ((∃ d, result = Some d ∧ d ≠ ∅) → status = "Success") ∧
    (result = None ∨ result = Some ∅ → status = "Failed").
Proof.
  intros Hrun. exists (if truthy result then "Success" else "Failed").
  split; [by apply log_operation_run|].
  split.
  - intros (d & -> & Hd).
    change (truthy (Some d)) with (negb (size d =? 0)%nat).
    destruct (size d) as [|n] eqn:Hsize; [|reflexivity].
    by apply map_size_empty_iff in Hsize.
  - intros [-> | ->]; [reflexivity|].
    change (truthy (Some (∅ : gmap string V))) with (negb (size (∅ : gmap string V) =? 0)%nat).
    by rewrite map_size_empty.
Qed.

Lemma log_operation_reports_truthiness_witness :
  ∃ status,
    log_operation (λ (_ : loc) (_ : unit), mret (Some (∅ : gmap string value)))
                  1%positive tt sample_world
    = Some (Some ∅,
            printed [log_status status]
              (printed [log_started (sample_clock 0%nat)] (ticked sample_world))) ∧
    ((∃ d : gmap string value, Some ∅ = Some d ∧ d ≠ ∅) → status = "Success") ∧
    (Some (∅ : gmap string value) = None ∨ Some (∅ : gmap string value) = Some ∅ →
     status = "Failed").
Proof.
  apply (log_operation_reports_truthiness
           (λ (_ : loc) (_ : unit), mret (Some (∅ : gmap string value)))
           sample_world _ 1%positive tt (Some ∅)).
  reflexivity.
Defined.

(** ** Orchestrators do not interfere *)

Lemma book_ride_stored_other (w : World) self other o o' o1
    (pickup destination : string) (d : float) :
  shared_config w →
  self ≠ other →
  systems w !! self = Some o →
  systems w !! other = Some o' →
  ∃ r w1,
    book_ride other pickup destination d w = Some (r, w1) ∧
    book_ride other pickup destination d (stored self o1 w)
    = Some (r, stored self o1 w1).
Proof.
  intros Hsh Hne Hself Hother.
  assert (Hother' : systems (stored self o1 w) !! other = Some o')
    by (cbn [stored systems]; by rewrite lookup_insert_ne).
  destruct (shared_config_some w other o' Hsh Hother) as [Hi Hc].
  destruct (is_authenticated o') eqn:Hauth;
    [destruct (pricing_strategy o') as [strategy|] eqn:Hp;
       [destruct (payment_method o') as [method|] eqn:Hm|]|].
  - eexists _, _. split.
    + exact (book_ride_run w other o' _ strategy method pickup destination d
               Hother Hi Hc Hauth Hp Hm).
    + exact (book_ride_run (stored self o1 w) other o' _ strategy method
               pickup destination d Hother' Hi Hc Hauth Hp Hm).
  - eexists _, _. split.
    + apply (book_ride_unset w other o'); auto.
    + rewrite (book_ride_unset (stored self o1 w) other o'); auto.
  - eexists _, _. split.
    + apply (book_ride_unset w other o'); auto.
    + rewrite (book_ride_unset (stored self o1 w) other o'); auto.
  - eexists _, _. split.
    + by apply (book_ride_rejected w other o').
    + by rewrite (book_ride_rejected (stored self o1 w) other o').
Qed.

(** X11. Orchestrators do not interfere: in a store with a shared
    configuration, setting the pricing strategy or the payment method of
    one orchestrator changes neither what a booking on another
    orchestrator returns nor what it prints. *)
Theorem orchestrators_do_not_interfere (w : World) (self other : loc)
    (o o' : CabBookingSystem) (strategy : PricingStrategy) (method : PaymentMethod)
    (pickup destination : string) (distance_km : float) :
  shared_config w →
  self ≠ other →
  systems w !! self = Some o →
  systems w !! other = Some o' →
  ∃ r w1 w2 w3,
    book_ride other pickup destination distance_km w = Some (r, w1) ∧
    (set_pricing self strategy;;
     book_ride other pickup destination distance_km) w = Some (r, w2) ∧
    (set_payment self method;;
     book_ride other pickup destination distance_km) w = Some (r, w3) ∧
    stdout w2 = stdout w1 ∧ stdout w3 = stdout w1.
Proof.
  intros Hsh Hne Hself Hother.
  set (o1 := mkCabBookingSystem (user_name o) (is_authenticated o)
                                (Some strategy) (payment_method o) (config o)).
  set (o2 := mkCabBookingSystem (user_name o) (is_authenticated o)
                                (pricing_strategy o) (Some method) (config o)).
  destruct (book_ride_stored_other w self other o o' o1 pickup destination distance_km
              Hsh Hne Hself Hother) as (r & w1 & Hrun & Hrun1).
  destruct (book_ride_stored_other w self other o o' o2 pickup destination distance_km
              Hsh Hne Hself Hother) as (r' & w1' & Hrun' & Hrun2).
  rewrite Hrun in Hrun'. injection Hrun' as <- <-.
  exists r, w1, (stored self o1 w1), (stored self o2 w1).
  unfold set_pricing, set_payment.
  rewrite !(bind_Some _ _ _ _ _ (assign_Some w self o _ Hself)).
  by split_and!.
Qed.

Lemma orchestrators_do_not_interfere_witness :
  ∃ r w1 w2 w3,
    book_ride 1%positive "MG Road" "Koramangala" (Float.of_int 5) sample_world
    = Some (r, w1) ∧
    (set_pricing 3%positive NormalPricing;;
     book_ride 1%positive "MG Road" "Koramangala" (Float.of_int 5)) sample_world
    = Some (r, w2) ∧
    (set_payment 3%positive CardPayment;;
     book_ride 1%positive "MG Road" "Koramangala" (Float.of_int 5)) sample_world
    = Some (r, w3) ∧
    stdout w2 = stdout w1 ∧ stdout w3 = stdout w1.
Proof.
  apply (orchestrators_do_not_interfere sample_world 3%positive 1%positive
           (mkCabBookingSystem "Asha" true (Some SurgePricing) None 1%positive)
           (mkCabBookingSystem "John" true (Some NormalPricing) (Some UPIPayment) 1%positive)
           NormalPricing CardPayment "MG Road" "Koramangala" (Float.of_int 5)).
  - exact shared_config_sample.
  - discriminate.
  - reflexivity.
  - reflexivity.
Defined.

(** ** The script *)

(** X12. The script runs to its end from the start of the process,
    whatever the clock shows. It prints the banner, the seven lines of a
    successful booking for each of the first three scenarios (fares 50.0,
    375.0 and 80.0, with the first three readings of the clock), the two
    lines of the authentication gate for the fourth, and the singleton
    demonstration with 'Same instance: True'. It leaves one configuration
    object and two orchestrators: John with the policies of scenario 3,
    and Jane with those of scenario 4. *)
Theorem main_transcript (clk : nat → string) :
  main (initial_world clk)
  = Some (tt,
      mkWorld (Some 1%positive)
        {[ 1%positive := mkAppConfig "MiniCab" "₹" ]}
        (<[ 1%positive := mkCabBookingSystem "John" true
                            (Some NormalPricing) (Some WalletPayment) 1%positive ]>
        (<[ 2%positive := mkCabBookingSystem "Jane" false
                            (Some NormalPricing) (Some UPIPayment) 1%positive ]> ∅))
        [ [Lit (str_mul "=" 60)];
          [Lit "Welcome to "; Str "MiniCab"];
          [Lit (str_mul "=" 60)];
          [Lit (nl +:+ "### SCENARIO 1: Normal Pricing + UPI ###")];
          auth_user "John"; auth_success; log_started (clk 0%nat);
          ride_line "MG Road" "Koramangala" (Float.of_int 5);
          fare_line "₹" (Float.of_int 50);
          payment_line UPIPayment "₹" (Float.of_int 50);
          log_status "Success";
          [Lit (nl +:+ "### SCENARIO 2: Surge Pricing + Card ###")];
          auth_user "John"; auth_success; log_started (clk 1%nat);
          ride_line "Airport" "Whitefield" (Float.of_int 15);
          fare_line "₹" (Float.of_int 375);
          payment_line CardPayment "₹" (Float.of_int 375);
          log_status "Success";
          [Lit (nl +:+ "### SCENARIO 3: Normal Pricing + Wallet ###")];
          auth_user "John"; auth_success; log_started (clk 2%nat);
          ride_line "Indiranagar" "HSR Layout" (Float.of_int 8);
          fare_line "₹" (Float.of_int 80);
          payment_line WalletPayment "₹" (Float.of_int 80);
          log_status "Success";
          [Lit (nl +:+ "### SCENARIO 4: Unauthenticated User ###")];
          auth_user "Jane"; auth_failed;
          [Lit (nl +:+ "### SINGLETON DEMO ###")];
          [Lit "Same instance: "; Str "True"];
          [Lit "App: "; Str "MiniCab"; Lit ", Currency: "; Str "₹"] ]
        clk 3%nat).
Proof. reflexivity. Qed.
